(** * Resolvers of the bluedit server: a shallow embedding and its properties

    The development follows the resolver sources: the two versions of the
    user resolver (the one written against MikroORM and the one written
    against TypeORM) and the post resolver.  Database tables are lists of
    rows, the reset-token cache is a finite map, a resolver is a function
    from the request and the state of the stores to an outcome and the new
    state. *)

From Stdlib Require Import ZArith List String Ascii Bool Lia DecimalString DecimalPos.
From stdpp Require Import base list gmap strings sorting.

Local Open Scope string_scope.
Local Open Scope list_scope.
Local Open Scope Z_scope.

(** ** JavaScript built-ins used by the resolvers *)

Module JS.

(** A call either returns or throws. *)
Inductive Outcome (A : Type) : Type :=
| Returned (a : A)
| Thrown (e : string).
Arguments Returned {A} a.
Arguments Thrown {A} e.

(** An argument that the schema lets be left out or be [null]: the
    value is [undefined], [null] or given. *)
Inductive Nullable (A : Type) : Type :=
| Undefined
| Null
| Given (a : A).
Arguments Undefined {A}.
Arguments Null {A}.
Arguments Given {A} a.

(** Truthiness of [number | undefined] and of [string | null]. *)
Definition truthy_number (n : option Z) : bool :=
  match n with
  | Some k => negb (k =? 0)
  | None => false
  end.

Definition truthy_string (s : option string) : bool :=
  match s with
  | Some (String _ _) => true
  | _ => false
  end.

(** [s.includes(sub)] *)
Fixpoint includes (s sub : string) : bool :=
  String.prefix sub s
  || match s with
     | EmptyString => false
     | String _ rest => includes rest sub
     end.

(** [parseInt(s)] with no radix argument; [None] is [NaN].  Leading
    white space is skipped (the ASCII part of it), a sign is read, a
    [0x] prefix selects base sixteen, and the longest run of digits is
    converted. *)
Definition is_space (c : ascii) : bool :=
  match nat_of_ascii c with
  | 9%nat | 10%nat | 11%nat | 12%nat | 13%nat | 32%nat => true
  | _ => false
  end.

Fixpoint trim_start (s : string) : string :=
  match s with
  | String c rest => if is_space c then trim_start rest else s
  | EmptyString => s
  end.

Definition digit_value (radix : Z) (c : ascii) : option Z :=
  let n := Z.of_nat (nat_of_ascii c) in
  let v :=
    if (48 <=? n) && (n <=? 57) then Some (n - 48)
    else if (97 <=? n) && (n <=? 122) then Some (n - 87)
    else if (65 <=? n) && (n <=? 90) then Some (n - 55)
    else None in
  match v with
  | Some d => if d <? radix then Some d else None
  | None => None
  end.

Fixpoint digits (radix : Z) (acc : option Z) (s : string) : option Z :=
  match s with
  | String c rest =>
      match digit_value radix c with
      | Some d =>
          digits radix
            (Some (radix * match acc with Some a => a | None => 0 end + d))
            rest
      | None => acc
      end
  | EmptyString => acc
  end.

Definition parseInt (s : string) : option Z :=
  let s1 := trim_start s in
  let '(sign, s2) :=
    match s1 with
    | String "-" rest => (-1, rest)
    | String "+" rest => (1, rest)
    | _ => (1, s1)
    end in
  let '(radix, s3) :=
    match s2 with
    | String "0" (String "x" rest) => (16, rest)
    | String "0" (String "X" rest) => (16, rest)
    | _ => (10, s2)
    end in
  match digits radix None s3 with
  | Some n => Some (sign * n)
  | None => None
  end.

(** [new Date(n)]: a time value in milliseconds, or an invalid date
    ([None]) for [NaN] and for values beyond the range of dates. *)
Definition Date (n : option Z) : option Z :=
  match n with
  | Some t => if Z.abs t <=? 8640000000000000 then Some t else None
  | None => None
  end.

(** [a.slice(0, e)]: a negative [e] counts from the end. *)
Definition slice0 {A : Type} (e : Z) (a : list A) : list A :=
  let len := Z.of_nat (length a) in
  let k := if e <? 0 then Z.max (len + e) 0 else Z.min e len in
  firstn (Z.to_nat k) a.

End JS.
Import JS.

(** ** Entities *)

Module User.
Record t : Type := mk {
  id : Z;
  username : string;
  email : string;
  password : string;
  createdAt : Z;
  updatedAt : Z
}.
End User.

Module Post.
Record t : Type := mk {
  id : Z;
  title : string;
  text : string;
  points : Z;
  creatorId : Z;
  createdAt : Z;
  updatedAt : Z
}.

Definition with_title (s : string) (now : Z) (p : t) : t :=
  mk (id p) s (text p) (points p) (creatorId p) (createdAt p) now.

Definition add_points (d : Z) (p : t) : t :=
  mk (id p) (title p) (text p) (points p + d) (creatorId p)
     (createdAt p) (updatedAt p).
End Post.

Module Upvote.
Record t : Type := mk {
  value : Z;
  userId : Z;
  postId : Z
}.

Definition with_value (v : Z) (u : t) : t := mk v (userId u) (postId u).
End Upvote.

(** ** The relational store *)

Record Db : Type := mkDb {
  user_table : list User.t;
  post_table : list Post.t;
  upvote_table : list Upvote.t;
  user_id_seq : Z
}.

Definition set_user_table (us : list User.t) (db : Db) : Db :=
  mkDb us (post_table db) (upvote_table db) (user_id_seq db).
Definition set_post_table (ps : list Post.t) (db : Db) : Db :=
  mkDb (user_table db) ps (upvote_table db) (user_id_seq db).
Definition set_upvote_table (vs : list Upvote.t) (db : Db) : Db :=
  mkDb (user_table db) (post_table db) vs (user_id_seq db).

(** An error raised by the database driver. *)
Record DbError : Type := mkDbError {
  code : string;
  detail : string
}.

Module Sql.

(** A statement runs against the store and either yields the new store
    or raises. *)
Definition Stmt : Type := Db -> DbError + Db.

(** [getConnection().transaction(async tm => { await tm.query(q1); await
    tm.query(q2) })]: the statements run in order; when one raises, the
    store is left as it was before the first one and the error
    propagates. *)
Fixpoint run (stmts : list Stmt) (db : Db) : DbError + Db :=
  match stmts with
  | [] => inr db
  | q :: rest =>
      match q db with
      | inr db' => run rest db'
      | inl e => inl e
      end
  end.

Definition transaction (stmts : list Stmt) (db : Db) : Outcome unit * Db :=
  match run stmts db with
  | inr db' => (Returned tt, db')
  | inl e => (Thrown (code e), db)
  end.

Definition upvote_matches (uid pid : Z) (u : Upvote.t) : bool :=
  (Upvote.userId u =? uid) && (Upvote.postId u =? pid).

(** [update upvote set value = $1 where "postId" = $2 and "userId" = $3] *)
Definition update_upvote_value (v pid uid : Z) : Stmt := fun db =>
  inr (set_upvote_table
         (map (fun u => if upvote_matches uid pid u
                        then Upvote.with_value v u else u)
              (upvote_table db)) db).

(** [update post set points = points + $1 where id = $2] *)
Definition update_post_points (d pid : Z) : Stmt := fun db =>
  inr (set_post_table
         (map (fun p => if Post.id p =? pid then Post.add_points d p else p)
              (post_table db)) db).

(** Modelled from the spec: the constraints of the Upvote entity, whose
    declaration is not part of the sources.  The vote table has the
    composite key (userId, postId), hence at most one row per pair, and
    its rows reference a post, so that a vote for a post that does not
    exist is a failure of the statement. *)
Definition post_exists (pid : Z) (db : Db) : bool :=
  existsb (fun p => Post.id p =? pid) (post_table db).

(** [insert into upvote ("userId", "postId", value) values($1, $2, $3)] *)
Definition insert_upvote (uid pid v : Z) : Stmt := fun db =>
  if existsb (upvote_matches uid pid) (upvote_table db)
  then inl (mkDbError "23505" "upvote primary key")
  else if negb (post_exists pid db)
  then inl (mkDbError "23503" "upvote references post")
  else inr (set_upvote_table
              (upvote_table db ++ [Upvote.mk v uid pid]) db).

(** [Upvote.findOne({ where: { userId, postId } })] *)
Definition Upvote_findOne (uid pid : Z) (db : Db) : option Upvote.t :=
  find (upvote_matches uid pid) (upvote_table db).

(** [Post.findOne(id)] *)
Definition Post_findOne (pid : Z) (db : Db) : option Post.t :=
  find (fun p => Post.id p =? pid) (post_table db).

(** [Post.update({ id }, { title })]; the column that records the last
    update is set by the mapper. *)
Definition Post_update_title (pid : Z) (s : string) (now : Z) (db : Db) : Db :=
  set_post_table
    (map (fun p => if Post.id p =? pid then Post.with_title s now p else p)
         (post_table db)) db.

(** *** The statement of the feed *)

(** A replacement: a number, or a [Date] that may be invalid. *)
Inductive Param : Type :=
| PNumber (n : Z)
| PDate (d : option Z).

(** [json_build_object('id', u.id, ...) "createdBy"] *)
Record Creator : Type := mkCreator {
  creator_id : Z;
  creator_username : string;
  creator_email : string;
  creator_createdAt : Z;
  creator_updatedAt : Z
}.

(** A row of the result: [p.*], ["createdBy"] and ["voteStatus"]. *)
Record PostRow : Type := mkPostRow {
  post : Post.t;
  createdBy : Creator;
  voteStatus : option Z
}.

(** The two places where the text of the statement depends on the
    request: the column ["voteStatus"] is either the scalar subquery
    [(select value from upvote where "userId" = $k and "postId" = p.id)]
    or [null]; the clause [where p."createdAt" < $k] is present or not.
    Placeholders are kept as their numbers. *)
Inductive VoteStatusColumn : Type :=
| VoteOfUser (k : nat)
| VoteNull.

Record FeedQuery : Type := mkFeedQuery {
  vote_status : VoteStatusColumn;
  created_before : option nat;
  limit : nat
}.

(** [$k] among the replacements. *)
Definition placeholder (k : nat) (rs : list Param) : option Param :=
  match k with
  | O => None
  | S i => nth_error rs i
  end.

Definition number_param (k : nat) (rs : list Param) : DbError + Z :=
  match placeholder k rs with
  | Some (PNumber n) => inr n
  | Some (PDate _) => inl (mkDbError "22P02" "invalid input syntax for type integer")
  | None => inl (mkDbError "08P01" "there is no such parameter")
  end.

Definition date_param (k : nat) (rs : list Param) : DbError + Z :=
  match placeholder k rs with
  | Some (PDate (Some t)) => inr t
  | Some (PDate None) => inl (mkDbError "22007" "invalid input syntax for type timestamp")
  | Some (PNumber _) => inl (mkDbError "22007" "invalid input syntax for type timestamp")
  | None => inl (mkDbError "08P01" "there is no such parameter")
  end.

(** [order by p."createdAt" DESC]; rows with the same time keep the
    order the sort gives them. *)
Definition newer_first (a b : PostRow) : Prop :=
  Post.createdAt (post b) <= Post.createdAt (post a).

#[global] Instance newer_first_dec (a b : PostRow) : Decision (newer_first a b).
Proof. unfold newer_first. apply _. Defined.

(** [from post p inner join public.user u on u.id = p."creatorId"] with
    the select list evaluated on each pair. *)
Definition join_rows (voter : option Z) (db : Db) : list PostRow :=
  flat_map
    (fun p =>
       map (fun u =>
              mkPostRow p
                (mkCreator (User.id u) (User.username u) (User.email u)
                           (User.createdAt u) (User.updatedAt u))
                (match voter with
                 | Some uid =>
                     option_map Upvote.value
                       (find (upvote_matches uid (Post.id p)) (upvote_table db))
                 | None => None
                 end))
           (List.filter (fun u => User.id u =? Post.creatorId p) (user_table db)))
    (post_table db).

(** The rows selected once the placeholders have their values: the
    restriction on the time of creation when there is one, the order,
    and [limit $1]. *)
Definition select_rows (voter bound : option Z) (n : Z) (db : Db) : list PostRow :=
  let kept :=
    List.filter
      (fun r =>
         match bound with
         | Some t => Post.createdAt (post r) <? t
         | None => true
         end)
      (join_rows voter db) in
  firstn (Z.to_nat n) (merge_sort newer_first kept).

Definition feed (q : FeedQuery) (rs : list Param) (db : Db)
  : DbError + list PostRow :=
  match number_param (limit q) rs with
  | inl e => inl e
  | inr n =>
      if n <? 0 then inl (mkDbError "2201W" "LIMIT must not be negative")
      else
        match
          match vote_status q with
          | VoteOfUser k =>
              match number_param k rs with
              | inr uid => inr (Some uid)
              | inl e => inl e
              end
          | VoteNull => inr None
          end
        with
        | inl e => inl e
        | inr voter =>
            match
              match created_before q with
              | Some k =>
                  match date_param k rs with
                  | inr t => inr (Some t)
                  | inl e => inl e
                  end
              | None => inr None
              end
            with
            | inl e => inl e
            | inr bound => inr (select_rows voter bound n db)
            end
        end
  end.

(** Modelled from the spec: the Post entity, whose declaration is not
    part of the sources, has a surrogate key, a creator that references
    a user, and points that start at 0.  [id] is the key that the
    database draws for the row. *)
Definition insert_post (id : Z) (title text : string) (creatorId now : Z) (db : Db)
  : DbError + (Post.t * Db) :=
  if post_exists id db
  then inl (mkDbError "23505" "post primary key")
  else if negb (existsb (fun u => User.id u =? creatorId) (user_table db))
  then inl (mkDbError "23503" "post references user")
  else
    let row := Post.mk id title text 0 creatorId now now in
    inr (row, set_post_table (post_table db ++ [row]) db).

End Sql.

(** ** The post resolver *)

Module PaginatedPosts.
Record t : Type := mk {
  posts : list Sql.PostRow;
  hasMore : bool
}.
End PaginatedPosts.

Module PostInput.
Record t : Type := mk {
  title : string;
  text : string
}.
End PostInput.

Module PostResolver.

(** The [isAuth] middleware.

    Modelled from the spec: the middleware is not part of the sources;
    a call without an authenticated session is rejected before any
    access to the database. *)
Definition isAuth (session_userId : option Z) : bool :=
  truthy_number session_userId.

(** [vote(postId, value)], under [@UseMiddleware(isAuth)]. *)
Definition vote (postId value : Z) (session_userId : option Z) (db : Db)
  : Outcome bool * Db :=
  match session_userId with
  | Some userId =>
      if isAuth session_userId then
        let isUpvote := negb (value =? -1) in
        let realValue := if isUpvote then 1 else -1 in
        let upvote := Sql.Upvote_findOne userId postId db in
        match upvote with
        | Some u =>
            if negb (Upvote.value u =? realValue) then
              (* the user has voted on the post already and changes
                 the vote *)
              match Sql.transaction
                      [ Sql.update_upvote_value realValue postId userId;
                        Sql.update_post_points (2 * realValue) postId ] db
              with
              | (Returned _, db') => (Returned true, db')
              | (Thrown e, db') => (Thrown e, db')
              end
            else (Returned true, db)
        | None =>
            (* has never voted before *)
            match Sql.transaction
                    [ Sql.insert_upvote userId postId realValue;
                      Sql.update_post_points realValue postId ] db
            with
            | (Returned _, db') => (Returned true, db')
            | (Thrown e, db') => (Thrown e, db')
            end
        end
      else (Thrown "not authenticated", db)
  | None => (Thrown "not authenticated", db)
  end.


(** The part of [vote] that runs once [await Upvote.findOne(...)] has
    given [upvote]: the row is read before, and outside, the transaction
    that writes. *)
Definition vote_after_read (postId value userId : Z) (upvote : option Upvote.t)
    (db : Db) : Outcome bool * Db :=
  let isUpvote := negb (value =? -1) in
  let realValue := if isUpvote then 1 else -1 in
  match upvote with
  | Some u =>
      if negb (Upvote.value u =? realValue) then
        match Sql.transaction
                [ Sql.update_upvote_value realValue postId userId;
                  Sql.update_post_points (2 * realValue) postId ] db
        with
        | (Returned _, db') => (Returned true, db')
        | (Thrown e, db') => (Thrown e, db')
        end
      else (Returned true, db)
  | None =>
      match Sql.transaction
              [ Sql.insert_upvote userId postId realValue;
                Sql.update_post_points realValue postId ] db
      with
      | (Returned _, db') => (Returned true, db')
      | (Thrown e, db') => (Thrown e, db')
      end
  end.

(** Two requests of authenticated users, each given as the user, the
    post and the value, that overlap: both have their row from
    [Upvote.findOne] before the transaction of either runs; then the
    transaction of the first runs, then that of the second. *)
Definition overlapping_votes (call1 call2 : Z * Z * Z) (db : Db)
  : Outcome bool * Outcome bool * Db :=
  let '(userId1, postId1, value1) := call1 in
  let '(userId2, postId2, value2) := call2 in
  let upvote1 := Sql.Upvote_findOne userId1 postId1 db in
  let upvote2 := Sql.Upvote_findOne userId2 postId2 db in
  let '(r1, db1) := vote_after_read postId1 value1 userId1 upvote1 db in
  let '(r2, db2) := vote_after_read postId2 value2 userId2 upvote2 db1 in
  (r1, r2, db2).

(** [Post.findOne(id)] then, unless [typeof title] is ['undefined'],
    [Post.update({ id }, { title })]; the argument [title] is declared
    nullable.  [now] is the time at which the statement runs.

    Modelled from the spec: the title of a post is a string (the Post
    entity is not part of the sources), so that the statement that sets
    it to [null] is refused by the database, with code 23502. *)
Definition updatePost (id : Z) (title : Nullable string) (now : Z) (db : Db)
  : Outcome (option Post.t) * Db :=
  let post := Sql.Post_findOne id db in
  match post with
  | None => (Returned None, db)
  | Some p =>
      match title with
      | Undefined => (Returned (Some p), db)
      | Given s => (Returned (Some p), Sql.Post_update_title id s now db)
      | Null => (Thrown "23502", db)
      end
  end.

(** [posts(limit, cursor)]: first the call of [getConnection().query],
    with the text of the statement and its replacements built from the
    arguments, then the page cut out of the rows it returns. *)
Definition posts_query (limit : Z) (cursor : option string)
    (session_userId : option Z) (db : Db) : DbError + list Sql.PostRow :=
  let realLimit := Z.min 50 limit in
  let realLimitPlusOne := realLimit + 1 in
  let replacements0 := [Sql.PNumber realLimitPlusOne] in
  let replacements1 :=
    match session_userId with
    | Some userId =>
        if truthy_number session_userId
        then replacements0 ++ [Sql.PNumber userId]
        else replacements0
    | None => replacements0
    end in
  let '(replacements, cursorIndex) :=
    match cursor with
    | Some c =>
        if truthy_string cursor
        then let rs := replacements1 ++ [Sql.PDate (Date (parseInt c))] in
             (rs, length rs)
        else (replacements1, 3%nat)
    | None => (replacements1, 3%nat)
    end in
  Sql.feed
    {| Sql.vote_status :=
         if truthy_number session_userId then Sql.VoteOfUser 2 else Sql.VoteNull;
       Sql.created_before :=
         if truthy_string cursor then Some cursorIndex else None;
       Sql.limit := 1%nat |}
    replacements db.

Definition posts (limit : Z) (cursor : option string)
    (session_userId : option Z) (db : Db) : Outcome PaginatedPosts.t :=
  let realLimit := Z.min 50 limit in
  let realLimitPlusOne := realLimit + 1 in
  match posts_query limit cursor session_userId db with
  | inl e => Thrown (code e)
  | inr rows =>
      Returned
        {| PaginatedPosts.posts := slice0 realLimit rows;
           PaginatedPosts.hasMore :=
             Z.of_nat (length rows) =? realLimitPlusOne |}
  end.

(** The field resolver [textSnippet]: [post.text.slice(0, 50)]. *)
Definition textSnippet (post : Post.t) : string :=
  String.substring 0 50 (Post.text post).

(** [post(id)] *)
Definition post (id : Z) (db : Db) : option Post.t :=
  Sql.Post_findOne id db.

(** [createPost(input)], under [@UseMiddleware(isAuth)]:
    [Post.create({ ...input, creatorId: req.session.userId }).save()].
    [id] is the key drawn for the row and [now] the time of the
    statement. *)
Definition createPost (input : PostInput.t) (session_userId : option Z)
    (id now : Z) (db : Db) : Outcome Post.t * Db :=
  match session_userId with
  | Some userId =>
      if isAuth session_userId then
        match Sql.insert_post id (PostInput.title input) (PostInput.text input)
                userId now db
        with
        | inr (row, db') => (Returned row, db')
        | inl e => (Thrown (code e), db)
        end
      else (Thrown "not authenticated", db)
  | None => (Thrown "not authenticated", db)
  end.

End PostResolver.

(** ** The stores of the user resolvers *)

Record FieldError : Type := mkFieldError {
  field : string;
  message : string
}.

Module UserResponse.
Record t : Type := mk {
  errors : option (list FieldError);
  user : option User.t
}.
End UserResponse.

Module UsernamePasswordInput.
Record t : Type := mk {
  username : string;
  email : string;
  password : string
}.
End UsernamePasswordInput.

(** An entry of the cache: the string stored and the lifetime given with
    ['ex'].  The model has no clock of the cache, so that an entry stays
    until it is deleted. *)
Record CacheEntry : Type := mkCacheEntry {
  stored : string;
  ex : Z
}.

Record Mail : Type := mkMail {
  mail_to : string;
  mail_html : string
}.

(** What a request of the user resolver works on: the database, the
    cache, the session of the request and the mails sent so far. *)
Record Ctx : Type := mkCtx {
  db : Db;
  redis : gmap string CacheEntry;
  session_userId : option Z;
  outbox : list Mail
}.

Definition set_db (d : Db) (c : Ctx) : Ctx :=
  mkCtx d (redis c) (session_userId c) (outbox c).
Definition set_redis (r : gmap string CacheEntry) (c : Ctx) : Ctx :=
  mkCtx (db c) r (session_userId c) (outbox c).
Definition set_session_userId (s : option Z) (c : Ctx) : Ctx :=
  mkCtx (db c) (redis c) s (outbox c).
Definition set_outbox (o : list Mail) (c : Ctx) : Ctx :=
  mkCtx (db c) (redis c) (session_userId c) o.

Module Store.

(** A number written to the cache is stored as its decimal text. *)
Definition number_to_string (n : Z) : string :=
  NilZero.string_of_int (Z.to_int n).

(** [redis.set(key, value, 'ex', seconds)] *)
Definition redis_set (key : string) (value : Z) (seconds : Z) (c : Ctx) : Ctx :=
  set_redis (<[key := mkCacheEntry (number_to_string value) seconds]> (redis c)) c.

(** [redis.get(key)] *)
Definition redis_get (key : string) (c : Ctx) : option string :=
  stored <$> redis c !! key.

(** [redis.del(key)] *)
Definition redis_del (key : string) (c : Ctx) : Ctx :=
  set_redis (delete key (redis c)) c.

(** Modelled from the spec: the mailer is not part of the sources; a
    mail that is sent is recorded. *)
Definition sendEmail (to html : string) (c : Ctx) : Ctx :=
  set_outbox (outbox c ++ [mkMail to html]) c.

(** Modelled from the spec: the User entity, whose declaration is not
    part of the sources, has a surrogate key drawn from a sequence and
    unique constraints on username and on email.  The key is drawn
    before the constraints are checked; a violation is reported with
    code 23505 and a detail that names the column and the value. *)
Definition unique_violation (column value : string) : DbError :=
  mkDbError "23505"
    ("Key (" +:+ column +:+ ")=(" +:+ value +:+ ") already exists.").

Definition insert_user (username password email : string) (now : Z) (d : Db)
  : (DbError + User.t) * Db :=
  let id := user_id_seq d + 1 in
  let d1 := mkDb (user_table d) (post_table d) (upvote_table d) id in
  if existsb (fun u => String.eqb (User.username u) username) (user_table d)
  then (inl (unique_violation "username" username), d1)
  else if existsb (fun u => String.eqb (User.email u) email) (user_table d)
  then (inl (unique_violation "email" email), d1)
  else
    let row := User.mk id username email password now now in
    (inr row, set_user_table (user_table d ++ [row]) d1).

Definition User_findOne_by_email (email : string) (d : Db) : option User.t :=
  find (fun u => String.eqb (User.email u) email) (user_table d).

Definition User_findOne (id : Z) (d : Db) : option User.t :=
  find (fun u => User.id u =? id) (user_table d).

(** The update of the password hash of the row with the given key. *)
Definition User_update_password (id : Z) (hash : string) (now : Z) (d : Db) : Db :=
  set_user_table
    (map (fun u =>
            if User.id u =? id
            then User.mk (User.id u) (User.username u) (User.email u) hash
                         (User.createdAt u) now
            else u)
         (user_table d)) d.

Definition User_findOne_by_username (username : string) (d : Db) : option User.t :=
  find (fun u => String.eqb (User.username u) username) (user_table d).

End Store.

(** The double quote, for the link of the mail. *)
Definition dquote : string := String "034"%char EmptyString.

Definition reset_link (token : string) : string :=
  "<a href=" +:+ dquote +:+ "http://localhost:3000/change-password/" +:+ token
  +:+ dquote +:+ ">reset password</a>".

(** ** The user resolver, MikroORM version *)

Module MikroOrmUserResolver.
Section Resolver.

(** [argon2.hash], the validator of the registration form and the
    prefix of the cache keys are declared outside the sources. *)
Variable argon2_hash : string -> string.
Variable validateRegister : UsernamePasswordInput.t -> option (list FieldError).
Variable FORGET_PASSWORD_PREFIX : string.

Definition register (options : UsernamePasswordInput.t) (now : Z) (c : Ctx)
  : Outcome UserResponse.t * Ctx :=
  let errors := validateRegister options in
  match errors with
  | Some es => (Returned (UserResponse.mk (Some es) None), c)
  | None =>
      let hashedPassword := argon2_hash (UsernamePasswordInput.password options) in
      match Store.insert_user (UsernamePasswordInput.username options)
              hashedPassword (UsernamePasswordInput.email options) now (db c)
      with
      | (inr user, d) =>
          (* store user id session *)
          (Returned (UserResponse.mk None (Some user)),
           set_session_userId (Some (User.id user)) (set_db d c))
      | (inl err, d) =>
          (* duplicate username error code *)
          if String.eqb (code err) "23505" then
            (Returned
               (UserResponse.mk
                  (Some [mkFieldError "username" "username already taken"])
                  None),
             set_db d c)
          else
            (* the handler falls through with [user] undefined *)
            (Thrown "TypeError", set_db d c)
      end
  end.

(** [token] is the value that [v4()] returns. *)
Definition forgotPassword (email : string) (token : string) (c : Ctx)
  : Outcome bool * Ctx :=
  let user := Store.User_findOne_by_email email (db c) in
  match user with
  | None =>
      (* the email is not in db *)
      (Returned true, c)
  | Some u =>
      let c1 := Store.redis_set (FORGET_PASSWORD_PREFIX +:+ token) (User.id u)
                  (1000 * 60 * 60 * 24) c in
      let c2 := Store.sendEmail email (reset_link token) c1 in
      (Returned true, c2)
  end.

Definition changePassword (token newPassword : string) (now : Z) (c : Ctx)
  : Outcome UserResponse.t * Ctx :=
  if (String.length newPassword <=? 5)%nat then
    (Returned
       (UserResponse.mk
          (Some [mkFieldError "newPassword" "length must be greater than 5"])
          None), c)
  else
    let userId := Store.redis_get (FORGET_PASSWORD_PREFIX +:+ token) c in
    match userId with
    | Some (String a rest) =>
        match parseInt (String a rest) with
        | Some id =>
            let user := Store.User_findOne id (db c) in
            match user with
            | None =>
                (Returned
                   (UserResponse.mk
                      (Some [mkFieldError "token" "user no longer exists"])
                      None), c)
            | Some u =>
                let hash := argon2_hash newPassword in
                let u' := User.mk (User.id u) (User.username u) (User.email u)
                                  hash (User.createdAt u) now in
                let c1 := set_db (Store.User_update_password (User.id u) hash
                                    now (db c)) c in
                (* log in user after change password *)
                let c2 := set_session_userId (Some (User.id u)) c1 in
                (Returned (UserResponse.mk None (Some u')), c2)
            end
        | None =>
            (* a key that is not a number is refused by the database *)
            (Thrown "22P02", c)
        end
    | _ =>
        (Returned
           (UserResponse.mk
              (Some [mkFieldError "token" "token expired"]) None), c)
    end.

(** [argon2.verify(hash, plain)] *)
Variable argon2_verify : string -> string -> bool.

Definition me (c : Ctx) : option User.t :=
  (* user not logged in *)
  if negb (truthy_number (session_userId c)) then None
  else
    match session_userId c with
    | Some id => Store.User_findOne id (db c)
    | None => None
    end.

Definition login (usernameOrEmail password : string) (c : Ctx)
  : UserResponse.t * Ctx :=
  let user :=
    if includes usernameOrEmail "@"
    then Store.User_findOne_by_email usernameOrEmail (db c)
    else Store.User_findOne_by_username usernameOrEmail (db c) in
  match user with
  | None =>
      (UserResponse.mk
         (Some [mkFieldError "usernameOrEmail"
                  ("user doesn't exist in database")])
         None, c)
  | Some u =>
      let valid := argon2_verify (User.password u) password in
      if negb valid then
        (UserResponse.mk
           (Some [mkFieldError "password" "incorrect password"]) None, c)
      else
        (UserResponse.mk None (Some u),
         set_session_userId (Some (User.id u)) c)
  end.

End Resolver.
End MikroOrmUserResolver.

(** ** The user resolver, TypeORM version *)

Module UserResolver.
Section Resolver.

Variable argon2_hash : string -> string.
Variable validateRegister : UsernamePasswordInput.t -> option (list FieldError).
Variable FORGOT_PASSWORD_PREFIX : string.

(** The field resolver of [User.email]; [===] of the session's user id,
    which may be undefined, and the id of the user. *)
Definition email (user : User.t) (session_userId : option Z) : string :=
  (* don't show email if it's not requesting user's *)
  match session_userId with
  | Some k => if k =? User.id user then User.email user else ""
  | None => ""
  end.

Definition register (options : UsernamePasswordInput.t) (now : Z) (c : Ctx)
  : Outcome UserResponse.t * Ctx :=
  let errors := validateRegister options in
  match errors with
  | Some es => (Returned (UserResponse.mk (Some es) None), c)
  | None =>
      let hashedPassword := argon2_hash (UsernamePasswordInput.password options) in
      match Store.insert_user (UsernamePasswordInput.username options)
              hashedPassword (UsernamePasswordInput.email options) now (db c)
      with
      | (inr user, d) =>
          (* store user id session *)
          (Returned (UserResponse.mk None (Some user)),
           set_session_userId (Some (User.id user)) (set_db d c))
      | (inl err, d) =>
          (* duplicate username error code *)
          if String.eqb (code err) "23505" then
            if includes (detail err) "email" then
              (Returned
                 (UserResponse.mk
                    (Some [mkFieldError "email" "email already exists"])
                    None),
               set_db d c)
            else
              (Returned
                 (UserResponse.mk
                    (Some [mkFieldError "username" "username already taken"])
                    None),
               set_db d c)
          else
            (* the handler falls through with [user] undefined *)
            (Thrown "TypeError", set_db d c)
      end
  end.

(** [token] is the value that [v4()] returns. *)
Definition forgotPassword (email : string) (token : string) (c : Ctx)
  : Outcome bool * Ctx :=
  let user := Store.User_findOne_by_email email (db c) in
  match user with
  | None =>
      (* the email is not in db *)
      (Returned true, c)
  | Some u =>
      let c1 := Store.redis_set (FORGOT_PASSWORD_PREFIX +:+ token) (User.id u)
                  (1000 * 60 * 60 * 24) c in
      let c2 := Store.sendEmail email (reset_link token) c1 in
      (Returned true, c2)
  end.

Definition changePassword (token newPassword : string) (now : Z) (c : Ctx)
  : Outcome UserResponse.t * Ctx :=
  if (String.length newPassword <=? 5)%nat then
    (Returned
       (UserResponse.mk
          (Some [mkFieldError "newPassword" "length must be greater than 5"])
          None), c)
  else
    let key := FORGOT_PASSWORD_PREFIX +:+ token in
    let userId := Store.redis_get key c in
    match userId with
    | Some (String a rest) =>
        match parseInt (String a rest) with
        | Some userIdNum =>
            let user := Store.User_findOne userIdNum (db c) in
            match user with
            | None =>
                (Returned
                   (UserResponse.mk
                      (Some [mkFieldError "token" "user no longer exists"])
                      None), c)
            | Some u =>
                let c1 := set_db (Store.User_update_password userIdNum
                                    (argon2_hash newPassword) now (db c)) c in
                let c2 := Store.redis_del key c1 in
                (* log in user after change password *)
                let c3 := set_session_userId (Some (User.id u)) c2 in
                (Returned (UserResponse.mk None (Some u)), c3)
            end
        | None =>
            (* a key that is not a number is refused by the database *)
            (Thrown "22P02", c)
        end
    | _ =>
        (Returned
           (UserResponse.mk
              (Some [mkFieldError "token" "token expired"]) None), c)
    end.

(** [argon2.verify(hash, plain)] *)
Variable argon2_verify : string -> string -> bool.

Definition me (c : Ctx) : option User.t :=
  (* user not logged in *)
  if negb (truthy_number (session_userId c)) then None
  else
    match session_userId c with
    | Some id => Store.User_findOne id (db c)
    | None => None
    end.

Definition login (usernameOrEmail password : string) (c : Ctx)
  : UserResponse.t * Ctx :=
  let user :=
    if includes usernameOrEmail "@"
    then Store.User_findOne_by_email usernameOrEmail (db c)
    else Store.User_findOne_by_username usernameOrEmail (db c) in
  match user with
  | None =>
      (UserResponse.mk
         (Some [mkFieldError "usernameOrEmail"
                  ("user doesn't exist in database")])
         None, c)
  | Some u =>
      let valid := argon2_verify (User.password u) password in
      if negb valid then
        (UserResponse.mk
           (Some [mkFieldError "password" "incorrect password"]) None, c)
      else
        (UserResponse.mk None (Some u),
         set_session_userId (Some (User.id u)) c)
  end.

End Resolver.
End UserResolver.

(** ** The loader of votes *)

Module UpvoteLoader.

Record Key : Type := mkKey {
  postId : Z;
  userId : Z
}.

(** [Upvote.findByIds(keys)]: the rows whose key is among the keys, in
    the order of the table. *)
Definition findByIds (keys : list Key) (d : Db) : list Upvote.t :=
  List.filter
    (fun u => existsb (fun k => Sql.upvote_matches (userId k) (postId k) u) keys)
    (upvote_table d).

(** The template [`${userId}|${postId}`]. *)
Definition key_string (uid pid : Z) : string :=
  Store.number_to_string uid +:+ "|" +:+ Store.number_to_string pid.

(** The batch function given to [DataLoader]: the rows found are put
    in an object under the key of their user and post, and each key
    asked for is looked up in it. *)
Definition batch (keys : list Key) (d : Db) : list (option Upvote.t) :=
  let upvotes := findByIds keys d in
  let upvotesIdsToUpvote : gmap string Upvote.t :=
    fold_left
      (fun m upvote =>
         <[key_string (Upvote.userId upvote) (Upvote.postId upvote) := upvote]> m)
      upvotes ∅ in
  map (fun key => upvotesIdsToUpvote !! key_string (userId key) (postId key)) keys.

End UpvoteLoader.

(** * Predicates of the properties and sample stores *)

(** The contexts on which the two versions of the user resolver are run
    below: one user, and a reset token for that user in the cache. *)
Definition bob : User.t := User.mk 1 "bob" "bob@example.com" "hash-of-secret" 0 0.

Definition one_user : Db := mkDb [bob] [] [] 1.

Definition token_issued : Ctx :=
  mkCtx one_user
        (<["forget-password:tok" := mkCacheEntry "1" 86400000]> ∅)
        None [].

Definition no_validation_errors (_ : UsernamePasswordInput.t) : option (list FieldError) :=
  None.

Definition tagged_hash (s : string) : string := "hash-of-" +:+ s.

(** The user whose votes the feed shows. *)
Definition voter_of (session : option Z) : option Z :=
  if truthy_number session then session else None.

(** A store with two users, three posts and one vote, for the feed. *)
Definition alice : User.t := User.mk 2 "alice" "alice@example.com" "hash-of-secret" 5 5.

Definition post_a : Post.t := Post.mk 1 "first" "text of the first" 1 1 100 100.

Definition post_b : Post.t := Post.mk 2 "second" "text of the second" 0 2 200 200.

Definition post_c : Post.t := Post.mk 3 "third" "text of the third" 0 1 300 300.

Definition feed_db : Db :=
  mkDb [bob; alice] [post_a; post_b; post_c] [Upvote.mk 1 2 1] 2.

Definition rows_of (q : DbError + list Sql.PostRow) : list Sql.PostRow :=
  match q with
  | inr rows => rows
  | inl _ => []
  end.

(** The sum of the value column over the vote rows that reference a
    post. *)
Definition vote_sum (pid : Z) (vs : list Upvote.t) : Z :=
  fold_right Z.add 0
    (map Upvote.value (List.filter (fun u => Upvote.postId u =? pid) vs)).

(** Every post carries the sum of its votes. *)
Definition points_in_sync (d : Db) : Prop :=
  forall p, In p (post_table d) ->
            Post.points p = vote_sum (Post.id p) (upvote_table d).

Definition upvote_key (u : Upvote.t) : Z * Z := (Upvote.userId u, Upvote.postId u).

(** The vote table as its declaration keeps it: values are +1 or -1 and
    there is one row per user and post. *)
Definition ledger_ok (d : Db) : Prop :=
  (forall u, In u (upvote_table d) -> Upvote.value u = 1 \/ Upvote.value u = -1)
  /\ List.NoDup (map upvote_key (upvote_table d)).

(** The value that [vote] writes. *)
Definition realValue (value : Z) : Z := if negb (value =? -1) then 1 else -1.

(** What the two update statements of [vote] do to a row. *)
Definition flip_row (v pid uid : Z) (u : Upvote.t) : Upvote.t :=
  if Sql.upvote_matches uid pid u then Upvote.with_value v u else u.

Definition bump_post (delta pid : Z) (p : Post.t) : Post.t :=
  if Post.id p =? pid then Post.add_points delta p else p.

(** A run of calls of [vote], each given as the user, the post and the
    value. *)
Fixpoint votes (calls : list (Z * Z * Z)) (d : Db) : Db :=
  match calls with
  | [] => d
  | (uid, postId, value) :: rest =>
      votes rest (snd (PostResolver.vote postId value (Some uid) d))
  end.

(** Every vote row is for a post of the post table. *)
Definition votes_reference_posts (d : Db) : Prop :=
  forall u, In u (upvote_table d) -> Sql.post_exists (Upvote.postId u) d = true.

Definition store_ok (d : Db) : Prop :=
  ledger_ok d /\ points_in_sync d /\ votes_reference_posts d.

(** The calls of the post resolver that write, with their arguments and
    the session of the request. *)
Inductive Mutation : Type :=
| CallVote (session : option Z) (postId value : Z)
| CallCreatePost (session : option Z) (input : PostInput.t) (id now : Z)
| CallUpdatePost (id : Z) (title : Nullable string) (now : Z).

Definition mutate (d : Db) (m : Mutation) : Db :=
  match m with
  | CallVote session postId value =>
      snd (PostResolver.vote postId value session d)
  | CallCreatePost session input id now =>
      snd (PostResolver.createPost input session id now d)
  | CallUpdatePost id title now =>
      snd (PostResolver.updatePost id title now d)
  end.

Definition mutations (ms : list Mutation) (d : Db) : Db :=
  fold_left mutate ms d.

(** The number of vote rows of a post. *)
Definition vote_count (pid : Z) (vs : list Upvote.t) : nat :=
  length (List.filter (fun u => Upvote.postId u =? pid) vs).

(** The time of creation of the post of a row of the feed. *)
Definition row_time (r : Sql.PostRow) : Z := Post.createdAt (Sql.post r).

(** A check of passwords that goes with [tagged_hash]. *)
Definition tagged_verify (hash plain : string) : bool :=
  String.eqb hash (tagged_hash plain).

(** The row that a registration writes. *)
Definition registered_row (argon2_hash : string -> string)
    (options : UsernamePasswordInput.t) (now : Z) (d : Db) : User.t :=
  User.mk (user_id_seq d + 1) (UsernamePasswordInput.username options)
          (UsernamePasswordInput.email options)
          (argon2_hash (UsernamePasswordInput.password options)) now now.

(** The keys of the user table come from its sequence. *)
Definition user_keys_from_sequence (d : Db) : Prop :=
  0 <= user_id_seq d
  /\ forall u, In u (user_table d) -> User.id u <= user_id_seq d.

(** What identifies a user row, apart from its password. *)
Definition identity_columns (u : User.t) : Z * string * string * Z :=
  (User.id u, User.username u, User.email u, User.createdAt u).

Definition is_success (r : Outcome UserResponse.t) : Prop :=
  exists u, r = Returned (UserResponse.mk None (Some u)).

(** Where a run of decimal digits ends: at the end of the string or at
    a character that is neither a digit nor the mark of base sixteen. *)
Definition stops_number (rest : string) : Prop :=
  match rest with
  | EmptyString => True
  | String c _ => digit_value 10 c = None /\ c <> "x"%char /\ c <> "X"%char
  end.

(** * Properties *)

(** ** Account resolvers *)

Section Accounts.

Variable argon2_hash : string -> string.
Variable validateRegister : UsernamePasswordInput.t -> option (list FieldError).
Variable prefix : string.

Lemma find_none_iff {A : Type} (f : A -> bool) (l : list A) :
  find f l = None <-> (forall x, In x l -> f x = false).
Proof.
  split.
  - apply find_none.
  - induction l as [|a l IH]; intros H; simpl; [reflexivity|].
    rewrite (H a (or_introl eq_refl)). apply IH.
    intros x Hx. apply H. now right.
Qed.

Lemma no_user_with_email (e : string) (d : Db) :
  (forall u, In u (user_table d) -> User.email u <> e) ->
  Store.User_findOne_by_email e d = None.
Proof.
  intros H. apply find_none_iff. intros u Hu.
  apply String.eqb_neq. now apply H.
Qed.

(** C8.  [forgotPassword] returns [true] for every email, in both
    versions of the resolver, so that two calls cannot be told apart by
    what they return; when no user has the email, the cache and the
    mails sent are what they were (the whole context is). *)
Theorem forgotPassword_returns_true :
  forall (e token : string) (c : Ctx),
    fst (UserResolver.forgotPassword prefix e token c) = Returned true
    /\ fst (MikroOrmUserResolver.forgotPassword prefix e token c) = Returned true
    /\ (forall e' token' c',
           fst (UserResolver.forgotPassword prefix e token c)
           = fst (UserResolver.forgotPassword prefix e' token' c'))
    /\ ((forall u, In u (user_table (db c)) -> User.email u <> e) ->
        UserResolver.forgotPassword prefix e token c = (Returned true, c)
        /\ MikroOrmUserResolver.forgotPassword prefix e token c = (Returned true, c)).
Proof.
  intros e token c.
  assert (T : forall e0 t0 c0,
             fst (UserResolver.forgotPassword prefix e0 t0 c0) = Returned true).
  { intros e0 t0 c0. unfold UserResolver.forgotPassword.
    destruct (Store.User_findOne_by_email e0 (db c0)); reflexivity. }
  repeat split.
  - apply T.
  - unfold MikroOrmUserResolver.forgotPassword.
    destruct (Store.User_findOne_by_email e (db c)); reflexivity.
  - intros e' token' c'. now rewrite !T.
  - unfold UserResolver.forgotPassword.
    now rewrite (no_user_with_email e (db c) H).
  - unfold MikroOrmUserResolver.forgotPassword.
    now rewrite (no_user_with_email e (db c) H).
Qed.

(** C9.  The field resolver of [User.email] gives the stored email when
    the user id of the session is the id of the user, and the empty
    string for every other session, the one without a user id
    included. *)
Theorem email_shown_to_owner_only :
  forall (user : User.t) (session : option Z),
    (session = Some (User.id user) ->
     UserResolver.email user session = User.email user)
    /\ (session <> Some (User.id user) ->
        UserResolver.email user session = "").
Proof.
  intros user session. unfold UserResolver.email. split.
  - intros ->. now rewrite Z.eqb_refl.
  - intros Hne. destruct session as [k|]; [|reflexivity].
    destruct (Z.eqb_spec k (User.id user)) as [->|]; [congruence|reflexivity].
Qed.

(** *** Consumption of the reset token *)

Lemma insert_user_table_on_error (un pw em : string) (now : Z) (d d' : Db) (err : DbError) :
  Store.insert_user un pw em now d = (inl err, d') ->
  user_table d' = user_table d /\ post_table d' = post_table d
  /\ upvote_table d' = upvote_table d /\ code err = "23505".
Proof.
  unfold Store.insert_user. intros H.
  destruct (existsb _ _); [|destruct (existsb _ _)];
    inversion H; subst; simpl; auto.
Qed.

(** The TypeORM version deletes the entry of the token when the change
    succeeds, and a second call with the token gets the field error of
    an expired token. *)
Lemma typeorm_changePassword_consumes_token
    (token newPassword : string) (now : Z) (c : Ctx) (s : string) (id : Z) (u : User.t) :
  (5 < String.length newPassword)%nat ->
  Store.redis_get (prefix +:+ token) c = Some s ->
  s <> "" ->
  parseInt s = Some id ->
  Store.User_findOne id (db c) = Some u ->
  exists c',
    UserResolver.changePassword argon2_hash prefix token newPassword now c
    = (Returned (UserResponse.mk None (Some u)), c')
    /\ redis c' = delete (prefix +:+ token) (redis c)
    /\ Store.redis_get (prefix +:+ token) c' = None
    /\ forall newPassword' now',
        UserResolver.changePassword argon2_hash prefix token newPassword' now' c'
        = (Returned
             (UserResponse.mk
                (Some [mkFieldError "token" "token expired"]) None), c')
        \/ UserResolver.changePassword argon2_hash prefix token newPassword' now' c'
           = (Returned
                (UserResponse.mk
                   (Some [mkFieldError "newPassword" "length must be greater than 5"])
                   None), c').
Proof.
  intros Hlen Hget Hs Hparse Hfind.
  unfold UserResolver.changePassword.
  destruct (Nat.leb_spec (String.length newPassword) 5) as [Hle|_]; [lia|].
  rewrite Hget. destruct s as [|a rest]; [congruence|].
  rewrite Hparse, Hfind.
  eexists. split; [reflexivity|].
  assert (Hnone : Store.redis_get (prefix +:+ token)
            (set_session_userId (Some (User.id u))
               (Store.redis_del (prefix +:+ token)
                  (set_db (Store.User_update_password id
                             (argon2_hash newPassword) now (db c)) c))) = None).
  { unfold Store.redis_get, Store.redis_del. simpl.
    now rewrite lookup_delete_eq. }
  split; [reflexivity|]. split; [exact Hnone|].
  intros newPassword' now'.
  destruct (Nat.leb_spec (String.length newPassword') 5) as [Hle|Hgt].
  - right. reflexivity.
  - left. rewrite Hnone. reflexivity.
Qed.

(** The MikroORM version leaves the cache as it is. *)
Lemma mikro_changePassword_keeps_cache
    (token newPassword : string) (now : Z) (c : Ctx) :
  redis (snd (MikroOrmUserResolver.changePassword argon2_hash prefix
                token newPassword now c)) = redis c.
Proof.
  unfold MikroOrmUserResolver.changePassword.
  destruct (_ <=? _)%nat; [reflexivity|].
  destruct (Store.redis_get _ c) as [[|a rest]|]; try reflexivity.
  destruct (parseInt _); [|reflexivity].
  destruct (Store.User_findOne _ _); reflexivity.
Qed.

(** *** Registration against a unique constraint *)

(** The TypeORM version names the field by the detail of the
    violation and writes no row. *)
Lemma typeorm_register_unique_violation
    (options : UsernamePasswordInput.t) (now : Z) (c : Ctx) (err : DbError) (d : Db) :
  validateRegister options = None ->
  Store.insert_user (UsernamePasswordInput.username options)
    (argon2_hash (UsernamePasswordInput.password options))
    (UsernamePasswordInput.email options) now (db c) = (inl err, d) ->
  exists c',
    UserResolver.register argon2_hash validateRegister options now c
    = (Returned
         (UserResponse.mk
            (Some [if includes (detail err) "email"
                   then mkFieldError "email" "email already exists"
                   else mkFieldError "username" "username already taken"])
            None), c')
    /\ user_table (db c') = user_table (db c)
    /\ session_userId c' = session_userId c.
Proof.
  intros Hval Hins. unfold UserResolver.register. rewrite Hval, Hins.
  destruct (insert_user_table_on_error _ _ _ _ _ _ _ Hins) as (Hu & _ & _ & Hcode).
  rewrite Hcode. simpl.
  destruct (includes (detail err) "email"); eexists; (split; [reflexivity|]);
    simpl; auto.
Qed.

End Accounts.

(** C2, MikroORM version.  A successful [changePassword] leaves the entry
    of the token in the cache, and a second call with the same token
    succeeds as well and sets another password: the token is not
    single-use. *)
Theorem mikro_changePassword_token_reusable :
  let first := MikroOrmUserResolver.changePassword tagged_hash "forget-password:"
                 "tok" "secret1" 10 token_issued in
  let second := MikroOrmUserResolver.changePassword tagged_hash "forget-password:"
                  "tok" "secret2" 20 (snd first) in
  fst first
  = Returned (UserResponse.mk None
                (Some (User.mk 1 "bob" "bob@example.com" "hash-of-secret1" 0 10)))
  /\ Store.redis_get "forget-password:tok" (snd first) = Some "1"
  /\ fst second
     = Returned (UserResponse.mk None
                   (Some (User.mk 1 "bob" "bob@example.com" "hash-of-secret2" 0 20)))
  /\ user_table (db (snd second))
     = [User.mk 1 "bob" "bob@example.com" "hash-of-secret2" 0 20].
Proof. vm_compute. repeat split. Qed.

(** C3, MikroORM version.  A registration with a fresh username and the
    email of an existing user is refused by the constraint on email, and
    the resolver reports the field [username]. *)
Theorem mikro_register_email_collision_reported_as_username :
  let options := UsernamePasswordInput.mk "alice" "bob@example.com" "secret1" in
  let c := mkCtx one_user ∅ None [] in
  fst (Store.insert_user "alice" (tagged_hash "secret1") "bob@example.com" 10 one_user)
  = inl (mkDbError "23505" "Key (email)=(bob@example.com) already exists.")
  /\ fst (MikroOrmUserResolver.register tagged_hash no_validation_errors options 10 c)
     = Returned
         (UserResponse.mk
            (Some [mkFieldError "username" "username already taken"]) None)
  /\ fst (UserResolver.register tagged_hash no_validation_errors options 10 c)
     = Returned
         (UserResponse.mk
            (Some [mkFieldError "email" "email already exists"]) None).
Proof. vm_compute. repeat split. Qed.

(** ** Posts *)

Lemma Post_findOne_some (id : Z) (d : Db) (p : Post.t) :
  Sql.Post_findOne id d = Some p -> In p (post_table d) /\ Post.id p = id.
Proof.
  unfold Sql.Post_findOne. intros H. apply find_some in H as [Hin Hid].
  split; [exact Hin|]. now apply Z.eqb_eq.
Qed.

Lemma Post_findOne_unique (id : Z) (d : Db) (p p0 : Post.t) :
  List.NoDup (map Post.id (post_table d)) ->
  In p (post_table d) -> In p0 (post_table d) ->
  Post.id p = Post.id p0 -> p = p0.
Proof.
  induction (post_table d) as [|a l IH]; simpl; [tauto|].
  intros Hnd Hp Hp0 Heq. inversion Hnd as [|? ? Hnotin Hnd']; subst.
  destruct Hp as [->|Hp], Hp0 as [->|Hp0]; auto.
  - exfalso. apply Hnotin. rewrite Heq. now apply in_map.
  - exfalso. apply Hnotin. rewrite <- Heq. now apply in_map.
Qed.

(** C10, as amended.  For a post that exists and a title that is a
    string, [updatePost] returns a row of the table as it was before the
    call (the row with that id: the one row when ids are unique), so
    that the title in the answer is the one stored before, and sets the
    title of the rows with that id to the new one, leaving every other
    row and table; for an id that no row has it returns [null] and the
    store is unchanged, whatever the title argument. *)
Theorem updatePost_returns_row_before_update :
  forall (id : Z) (title : string) (now : Z) (d : Db),
    (forall p0, In p0 (post_table d) -> Post.id p0 = id ->
       exists p,
         fst (PostResolver.updatePost id (Given title) now d) = Returned (Some p)
         /\ In p (post_table d) /\ Post.id p = id
         /\ (List.NoDup (map Post.id (post_table d)) -> p = p0)
         /\ post_table (snd (PostResolver.updatePost id (Given title) now d))
            = map (fun q => if Post.id q =? id
                            then Post.with_title title now q else q)
                  (post_table d)
         /\ user_table (snd (PostResolver.updatePost id (Given title) now d))
            = user_table d
         /\ upvote_table (snd (PostResolver.updatePost id (Given title) now d))
            = upvote_table d)
    /\ (forall t, (forall p0, In p0 (post_table d) -> Post.id p0 <> id) ->
          PostResolver.updatePost id t now d = (Returned None, d)).
Proof.
  intros id title now d. split.
  - intros p0 Hin Hid. unfold PostResolver.updatePost.
    destruct (Sql.Post_findOne id d) as [p|] eqn:Hfind.
    + destruct (Post_findOne_some _ _ _ Hfind) as [Hp Hpid].
      exists p. simpl. repeat split; auto.
      intros Hnd. apply (Post_findOne_unique id d); auto. congruence.
    + exfalso. unfold Sql.Post_findOne in Hfind.
      apply (find_none _ _ Hfind) in Hin. apply Z.eqb_neq in Hin. auto.
  - intros t Hnone. unfold PostResolver.updatePost.
    replace (Sql.Post_findOne id d) with (@None Post.t); [reflexivity|].
    symmetry. unfold Sql.Post_findOne. apply find_none_iff.
    intros x Hx. apply Z.eqb_neq. now apply Hnone.
Qed.

(** *** The feed *)

(** What [posts_query] amounts to, case by case. *)
Lemma posts_query_unfold (limit : Z) (cursor : option string) (session : option Z) (d : Db) :
  PostResolver.posts_query limit cursor session d
  = if Z.min 50 limit + 1 <? 0
    then inl (mkDbError "2201W" "LIMIT must not be negative")
    else
      match cursor with
      | Some (String a rest) =>
          match Date (parseInt (String a rest)) with
          | Some t =>
              inr (Sql.select_rows (voter_of session) (Some t) (Z.min 50 limit + 1) d)
          | None =>
              inl (mkDbError "22007" "invalid input syntax for type timestamp")
          end
      | _ => inr (Sql.select_rows (voter_of session) None (Z.min 50 limit + 1) d)
      end.
Proof.
  unfold PostResolver.posts_query, voter_of.
  destruct session as [uid|]; [destruct (Z.eqb_spec uid 0) as [->|Hne]|];
    (destruct cursor as [[|a rest]|]; cbn -[Z.min Z.add parseInt Sql.select_rows];
     [ | destruct (Date (parseInt (String a rest))) | ];
     cbn -[Z.min Z.add parseInt Sql.select_rows];
     try rewrite (proj2 (Z.eqb_neq uid 0) Hne);
     cbn -[Z.min Z.add parseInt Sql.select_rows];
     destruct (Z.min 50 limit + 1 <? 0); reflexivity).
Qed.

#[local] Instance newer_first_total : Total Sql.newer_first.
Proof. intros a b. unfold Sql.newer_first. lia. Qed.

#[local] Instance newer_first_trans : Transitive Sql.newer_first.
Proof. intros a b c. unfold Sql.newer_first. lia. Qed.

Lemma StronglySorted_firstn {A : Type} (R : relation A) (n : nat) (l : list A) :
  StronglySorted R l -> StronglySorted R (firstn n l).
Proof.
  intros H. rewrite <- (firstn_skipn n l) in H.
  now apply StronglySorted_app_1_l in H.
Qed.

Lemma select_rows_sorted (voter bound : option Z) (n : Z) (d : Db) :
  StronglySorted Sql.newer_first (Sql.select_rows voter bound n d).
Proof.
  unfold Sql.select_rows. apply StronglySorted_firstn.
  apply StronglySorted_merge_sort; apply _.
Qed.

Lemma select_rows_length (voter bound : option Z) (n : Z) (d : Db) :
  0 <= n -> Z.of_nat (length (Sql.select_rows voter bound n d)) <= n.
Proof.
  intros Hn. unfold Sql.select_rows. rewrite length_firstn. lia.
Qed.

Lemma In_firstn {A : Type} (n : nat) (l : list A) (x : A) :
  In x (firstn n l) -> In x l.
Proof.
  intros H. rewrite <- (firstn_skipn n l). apply in_or_app. now left.
Qed.

Lemma select_rows_older (voter : option Z) (t n : Z) (d : Db) (r : Sql.PostRow) :
  In r (Sql.select_rows voter (Some t) n d) ->
  Post.createdAt (Sql.post r) < t /\ In r (Sql.join_rows voter d).
Proof.
  unfold Sql.select_rows. intros H. apply In_firstn in H.
  apply list_elem_of_In in H. rewrite merge_sort_Permutation in H.
  apply list_elem_of_In in H. apply filter_In in H as [Hin Hlt].
  split; [now apply Z.ltb_lt|exact Hin].
Qed.

Lemma filter_all {A : Type} (l : list A) : List.filter (fun _ => true) l = l.
Proof. induction l as [|a l IH]; simpl; congruence. Qed.

Lemma slice0_nonneg {A : Type} (e : Z) (l : list A) :
  0 <= e -> slice0 e l = firstn (Z.to_nat e) l.
Proof.
  intros He. unfold slice0.
  destruct (Z.ltb_spec e 0) as [Hlt|_]; [lia|].
  destruct (Z.le_ge_cases e (Z.of_nat (length l))) as [Hle|Hge].
  - now rewrite Z.min_l.
  - rewrite Z.min_r by exact Hge. rewrite Nat2Z.id.
    rewrite firstn_all. symmetry. apply firstn_all2. lia.
Qed.

Lemma slice0_prefix {A : Type} (e : Z) (l : list A) :
  exists k, slice0 e l = firstn k l.
Proof. unfold slice0. eexists. reflexivity. Qed.

(** C6, as amended.  The statement asks for [min(50, limit) + 1] rows and
    gets at most that many; [hasMore] is true exactly when it got that
    many; and for a limit that is not negative the page is made of the
    first [min(50, limit)] rows, so that it has at most that many
    posts. *)
Theorem posts_page_of_effective_limit :
  forall (limit : Z) (cursor : option string) (session : option Z) (d : Db)
         (rows : list Sql.PostRow),
    PostResolver.posts_query limit cursor session d = inr rows ->
    (exists voter bound,
        rows = Sql.select_rows voter bound (Z.min 50 limit + 1) d)
    /\ Z.of_nat (length rows) <= Z.min 50 limit + 1
    /\ exists page,
        PostResolver.posts limit cursor session d = Returned page
        /\ (PaginatedPosts.hasMore page = true
            <-> Z.of_nat (length rows) = Z.min 50 limit + 1)
        /\ (0 <= limit ->
            PaginatedPosts.posts page = firstn (Z.to_nat (Z.min 50 limit)) rows
            /\ Z.of_nat (length (PaginatedPosts.posts page)) <= Z.min 50 limit).
Proof.
  intros limit cursor session d rows Hq.
  assert (Hsel : 0 <= Z.min 50 limit + 1
                 /\ exists voter bound,
                     rows = Sql.select_rows voter bound (Z.min 50 limit + 1) d).
  { rewrite posts_query_unfold in Hq.
    destruct (Z.ltb_spec (Z.min 50 limit + 1) 0) as [|Hn]; [discriminate|].
    split; [exact Hn|].
    destruct cursor as [[|a rest]|].
    - inversion Hq. eauto.
    - destruct (Date _); inversion Hq. eauto.
    - inversion Hq. eauto. }
  destruct Hsel as [Hn (voter & bound & ->)].
  split; [eauto|]. split; [now apply select_rows_length|].
  unfold PostResolver.posts. rewrite Hq.
  eexists. split; [reflexivity|]. simpl. split.
  - apply Z.eqb_eq.
  - intros Hlimit. rewrite slice0_nonneg by lia. split; [reflexivity|].
    rewrite length_firstn. lia.
Qed.

Lemma posts_page_of_effective_limit_witness :
  PostResolver.posts_query 2 None None feed_db
  = inr (rows_of (PostResolver.posts_query 2 None None feed_db))
  /\ PostResolver.posts 2 None None feed_db
     = Returned
         (PaginatedPosts.mk
            (firstn 2 (rows_of (PostResolver.posts_query 2 None None feed_db)))
            true)
  /\ map (fun r => Post.id (Sql.post r))
         (rows_of (PostResolver.posts_query 2 None None feed_db)) = [3; 2; 1]
  /\ exists page,
      PostResolver.posts 2 None None feed_db = Returned page
      /\ (PaginatedPosts.hasMore page = true
          <-> Z.of_nat (length (rows_of (PostResolver.posts_query 2 None None feed_db)))
              = Z.min 50 2 + 1)
      /\ (0 <= 2 ->
          PaginatedPosts.posts page
          = firstn (Z.to_nat (Z.min 50 2))
              (rows_of (PostResolver.posts_query 2 None None feed_db))
          /\ Z.of_nat (length (PaginatedPosts.posts page)) <= Z.min 50 2).
Proof.
  split; [vm_compute; reflexivity|].
  split; [vm_compute; reflexivity|].
  split; [vm_compute; reflexivity|].
  apply (posts_page_of_effective_limit 2 None None feed_db
           (rows_of (PostResolver.posts_query 2 None None feed_db))).
  vm_compute; reflexivity.
Defined.

(** C6, the claim as it is written, fails for the limit -1: the
    effective limit is -1, the statement asks for 0 rows, the page is
    empty, which is more than -1 posts, and [hasMore] is true. *)
Lemma posts_limit_minus_one_counterexample :
  PostResolver.posts (-1) None None feed_db
  = Returned (PaginatedPosts.mk [] true)
  /\ ~ (Z.of_nat (length (PaginatedPosts.posts (PaginatedPosts.mk [] true)))
        <= Z.min 50 (-1)).
Proof. split; [vm_compute; reflexivity|]. vm_compute. intros H. now apply H. Qed.

(** Below -1 the statement is refused. *)
Lemma posts_limit_below_minus_one (limit : Z) (cursor : option string)
    (session : option Z) (d : Db) :
  limit < -1 -> PostResolver.posts limit cursor session d = Thrown "2201W".
Proof.
  intros H. unfold PostResolver.posts. rewrite posts_query_unfold.
  destruct (Z.ltb_spec (Z.min 50 limit + 1) 0) as [_|Hge]; [reflexivity|lia].
Qed.

(** From -1 on, and with a cursor that is absent or denotes a time, the
    call returns a page. *)
Lemma posts_returns (limit : Z) (cursor : option string) (session : option Z) (d : Db) :
  -1 <= limit ->
  (forall c, cursor = Some c -> c <> "" -> Date (parseInt c) <> None) ->
  exists page, PostResolver.posts limit cursor session d = Returned page.
Proof.
  intros Hlimit Hcursor. unfold PostResolver.posts. rewrite posts_query_unfold.
  destruct (Z.ltb_spec (Z.min 50 limit + 1) 0) as [Hneg|_]; [lia|].
  destruct cursor as [[|a rest]|]; try (eexists; reflexivity).
  destruct (Date (parseInt (String a rest))) as [t|] eqn:Ht.
  - eexists; reflexivity.
  - exfalso. apply (Hcursor (String a rest) eq_refl); [discriminate|exact Ht].
Qed.

(** C7.  The posts of a page are in descending order of [createdAt];
    with a cursor (a string that is not empty) the time it denotes is a
    valid one and every post of the page was created strictly before it,
    the page being cut from the rows older than it; with no cursor the
    page is cut from all the rows of the join, newest first. *)
Theorem posts_older_than_cursor_newest_first :
  forall (limit : Z) (cursor : option string) (session : option Z) (d : Db)
         (page : PaginatedPosts.t),
    PostResolver.posts limit cursor session d = Returned page ->
    StronglySorted Sql.newer_first (PaginatedPosts.posts page)
    /\ (forall c, cursor = Some c -> c <> "" ->
          exists t,
            Date (parseInt c) = Some t
            /\ (forall r, In r (PaginatedPosts.posts page) ->
                  Post.createdAt (Sql.post r) < t)
            /\ PaginatedPosts.posts page
               = slice0 (Z.min 50 limit)
                   (Sql.select_rows (voter_of session) (Some t)
                      (Z.min 50 limit + 1) d))
    /\ (cursor = None \/ cursor = Some "" ->
          PaginatedPosts.posts page
          = slice0 (Z.min 50 limit)
              (firstn (Z.to_nat (Z.min 50 limit + 1))
                 (merge_sort Sql.newer_first (Sql.join_rows (voter_of session) d)))).
Proof.
  intros limit cursor session d page Hp.
  unfold PostResolver.posts in Hp. rewrite posts_query_unfold in Hp.
  destruct (Z.min 50 limit + 1 <? 0); [discriminate|].
  destruct cursor as [[|a rest]|].
  - inversion Hp; subst; clear Hp. simpl. split; [|split].
    + destruct (slice0_prefix (Z.min 50 limit)
                  (Sql.select_rows (voter_of session) None (Z.min 50 limit + 1) d))
        as [k ->].
      apply StronglySorted_firstn, select_rows_sorted.
    + intros c Hc Hne. congruence.
    + intros _. unfold Sql.select_rows. now rewrite filter_all.
  - destruct (Date (parseInt (String a rest))) as [t|] eqn:Ht; [|discriminate].
    inversion Hp; subst; clear Hp. simpl. split; [|split].
    + destruct (slice0_prefix (Z.min 50 limit)
                  (Sql.select_rows (voter_of session) (Some t) (Z.min 50 limit + 1) d))
        as [k ->].
      apply StronglySorted_firstn, select_rows_sorted.
    + intros c Hc _. inversion Hc; subst c. exists t.
      split; [exact Ht|]. split; [|reflexivity].
      intros r Hr.
      destruct (slice0_prefix (Z.min 50 limit)
                  (Sql.select_rows (voter_of session) (Some t) (Z.min 50 limit + 1) d))
        as [k Hk].
      rewrite Hk in Hr. apply In_firstn in Hr.
      now apply select_rows_older in Hr.
    + intros [Hc|Hc]; discriminate.
  - inversion Hp; subst; clear Hp. simpl. split; [|split].
    + destruct (slice0_prefix (Z.min 50 limit)
                  (Sql.select_rows (voter_of session) None (Z.min 50 limit + 1) d))
        as [k ->].
      apply StronglySorted_firstn, select_rows_sorted.
    + discriminate.
    + intros _. unfold Sql.select_rows. now rewrite filter_all.
Qed.

Lemma posts_older_than_cursor_newest_first_witness :
  PostResolver.posts 2 (Some "300") (Some 2) feed_db
  = Returned
      (PaginatedPosts.mk
         (firstn 2 (rows_of (PostResolver.posts_query 2 (Some "300") (Some 2) feed_db)))
         false)
  /\ map (fun r => (Post.id (Sql.post r), Sql.voteStatus r))
         (rows_of (PostResolver.posts_query 2 (Some "300") (Some 2) feed_db))
     = [(2, None); (1, Some 1)]
  /\ forall r,
      In r (firstn 2 (rows_of (PostResolver.posts_query 2 (Some "300") (Some 2) feed_db))) ->
      Post.createdAt (Sql.post r) < 300.
Proof.
  assert (H : PostResolver.posts 2 (Some "300") (Some 2) feed_db
              = Returned
                  (PaginatedPosts.mk
                     (firstn 2 (rows_of (PostResolver.posts_query 2 (Some "300")
                                           (Some 2) feed_db)))
                     false)) by (vm_compute; reflexivity).
  split; [exact H|]. split; [vm_compute; reflexivity|].
  destruct (posts_older_than_cursor_newest_first 2 (Some "300") (Some 2) feed_db _ H)
    as (_ & Hc & _).
  destruct (Hc "300" eq_refl ltac:(discriminate)) as (t & Ht & Hlt & _).
  vm_compute in Ht. inversion Ht; subst t. exact Hlt.
Defined.

(** ** The vote ledger *)

Lemma realValue_cases (value : Z) : realValue value = 1 \/ realValue value = -1.
Proof. unfold realValue. destruct (value =? -1); simpl; auto. Qed.

Lemma vote_sum_cons (pid : Z) (u : Upvote.t) (vs : list Upvote.t) :
  vote_sum pid (u :: vs)
  = (if Upvote.postId u =? pid then Upvote.value u else 0) + vote_sum pid vs.
Proof.
  unfold vote_sum. simpl. destruct (Upvote.postId u =? pid); reflexivity.
Qed.

Lemma vote_sum_snoc (pid : Z) (u : Upvote.t) (vs : list Upvote.t) :
  vote_sum pid (vs ++ [u])
  = vote_sum pid vs + (if Upvote.postId u =? pid then Upvote.value u else 0).
Proof.
  induction vs as [|a vs IH].
  - rewrite app_nil_l, vote_sum_cons. unfold vote_sum. simpl. lia.
  - rewrite <- app_comm_cons, !vote_sum_cons, IH. lia.
Qed.

Lemma upvote_matches_key (uid pid : Z) (u : Upvote.t) :
  Sql.upvote_matches uid pid u = true <-> upvote_key u = (uid, pid).
Proof.
  unfold Sql.upvote_matches, upvote_key. rewrite andb_true_iff, !Z.eqb_eq.
  split; [intros [-> ->]; reflexivity|intros H; inversion H; auto].
Qed.

Lemma flip_row_key (v pid uid : Z) (u : Upvote.t) :
  upvote_key (flip_row v pid uid u) = upvote_key u.
Proof. unfold flip_row. destruct (Sql.upvote_matches uid pid u); reflexivity. Qed.

Lemma flip_rows_no_match (v pid uid : Z) (vs : list Upvote.t) :
  ~ In (uid, pid) (map upvote_key vs) -> map (flip_row v pid uid) vs = vs.
Proof.
  induction vs as [|a vs IH]; simpl; [reflexivity|].
  intros Hnot. rewrite IH by tauto. f_equal. unfold flip_row.
  destruct (Sql.upvote_matches uid pid a) eqn:Hm; [|reflexivity].
  apply upvote_matches_key in Hm. tauto.
Qed.

(** Changing the one row of a user and a post moves the sum of that post
    by the change of the value, and no other sum. *)
Lemma vote_sum_flip (v pid uid pid' : Z) (vs : list Upvote.t) (u : Upvote.t) :
  List.NoDup (map upvote_key vs) ->
  find (Sql.upvote_matches uid pid) vs = Some u ->
  vote_sum pid' (map (flip_row v pid uid) vs)
  = vote_sum pid' vs + (if pid =? pid' then v - Upvote.value u else 0).
Proof.
  induction vs as [|a vs IH]; simpl; [discriminate|].
  intros Hnd Hfind. inversion Hnd as [|? ? Hnotin Hnd']; subst.
  destruct (Sql.upvote_matches uid pid a) eqn:Hm.
  - inversion Hfind; subst a. pose proof Hm as Hk.
    apply upvote_matches_key in Hk. rewrite Hk in Hnotin.
    rewrite flip_rows_no_match by exact Hnotin.
    rewrite !vote_sum_cons. unfold flip_row. rewrite Hm. simpl.
    inversion Hk as [[Hu Hp]]. rewrite Hp.
    destruct (pid =? pid'); lia.
  - replace (flip_row v pid uid a) with a by (unfold flip_row; now rewrite Hm).
    rewrite !vote_sum_cons, IH by assumption. lia.
Qed.

Lemma find_flip_rows (v pid uid : Z) (vs : list Upvote.t) (u : Upvote.t) :
  find (Sql.upvote_matches uid pid) vs = Some u ->
  find (Sql.upvote_matches uid pid) (map (flip_row v pid uid) vs)
  = Some (Upvote.with_value v u).
Proof.
  induction vs as [|a vs IH]; simpl; [discriminate|].
  unfold flip_row at 1.
  destruct (Sql.upvote_matches uid pid a) eqn:Hm.
  - intros H; inversion H; subst a. simpl.
    assert (Hm' : Sql.upvote_matches uid pid (Upvote.with_value v u) = true)
      by exact Hm.
    rewrite Hm'. unfold flip_row. now rewrite Hm.
  - simpl. rewrite Hm. exact IH.
Qed.

Lemma find_snoc_fresh (uid pid v : Z) (vs : list Upvote.t) :
  find (Sql.upvote_matches uid pid) vs = None ->
  find (Sql.upvote_matches uid pid) (vs ++ [Upvote.mk v uid pid])
  = Some (Upvote.mk v uid pid).
Proof.
  induction vs as [|a vs IH]; simpl.
  - intros _. unfold Sql.upvote_matches. simpl. now rewrite !Z.eqb_refl.
  - destruct (Sql.upvote_matches uid pid a); [discriminate|exact IH].
Qed.

Lemma find_none_existsb {A : Type} (f : A -> bool) (l : list A) :
  find f l = None -> existsb f l = false.
Proof.
  induction l as [|a l IH]; simpl; [reflexivity|].
  destruct (f a); [discriminate|exact IH].
Qed.

(** What a call of [vote] by an authenticated user amounts to, branch by
    branch. *)
Lemma vote_unfold (postId value uid : Z) (d : Db) :
  uid <> 0 ->
  PostResolver.vote postId value (Some uid) d
  = match Sql.Upvote_findOne uid postId d with
    | Some u =>
        if Upvote.value u =? realValue value then (Returned true, d)
        else
          (Returned true,
           mkDb (user_table d)
                (map (bump_post (2 * realValue value) postId) (post_table d))
                (map (flip_row (realValue value) postId uid) (upvote_table d))
                (user_id_seq d))
    | None =>
        if Sql.post_exists postId d then
          (Returned true,
           mkDb (user_table d)
                (map (bump_post (realValue value) postId) (post_table d))
                (upvote_table d ++ [Upvote.mk (realValue value) uid postId])
                (user_id_seq d))
        else (Thrown "23503", d)
    end.
Proof.
  intros Huid. unfold PostResolver.vote, PostResolver.isAuth. simpl.
  rewrite (proj2 (Z.eqb_neq uid 0) Huid). simpl.
  fold (realValue value).
  destruct (Sql.Upvote_findOne uid postId d) as [u|] eqn:Hfind.
  - destruct (Upvote.value u =? realValue value); reflexivity.
  - unfold Sql.transaction, Sql.run, Sql.insert_upvote.
    unfold Sql.Upvote_findOne in Hfind.
    rewrite (find_none_existsb _ _ Hfind).
    destruct (Sql.post_exists postId d); reflexivity.
Qed.

Lemma bump_post_id (delta pid : Z) (p : Post.t) :
  Post.id (bump_post delta pid p) = Post.id p.
Proof. unfold bump_post. destruct (Post.id p =? pid); reflexivity. Qed.

Lemma bump_post_points (delta pid : Z) (p : Post.t) :
  Post.points (bump_post delta pid p)
  = Post.points p + (if pid =? Post.id p then delta else 0).
Proof.
  unfold bump_post. rewrite (Z.eqb_sym pid).
  destruct (Post.id p =? pid); simpl; lia.
Qed.

(** A change of the vote table that moves the sum of one post by [delta]
    and an adjustment of the points of that post by [delta] keep the
    posts in step with their votes. *)
Lemma points_in_sync_step (d : Db) (delta pid : Z) (vs : list Upvote.t) :
  points_in_sync d ->
  (forall pid', vote_sum pid' vs
                = vote_sum pid' (upvote_table d) + (if pid =? pid' then delta else 0)) ->
  points_in_sync
    (mkDb (user_table d) (map (bump_post delta pid) (post_table d)) vs
          (user_id_seq d)).
Proof.
  intros Hsync Hsum p' Hin. simpl in *.
  apply in_map_iff in Hin as (p & <- & Hp).
  rewrite bump_post_id, bump_post_points, Hsum, (Hsync p Hp). reflexivity.
Qed.

Lemma vote_keeps_ledger (postId value uid : Z) (d : Db) :
  uid <> 0 -> ledger_ok d ->
  ledger_ok (snd (PostResolver.vote postId value (Some uid) d)).
Proof.
  intros Huid [Hval Hkeys]. rewrite vote_unfold by exact Huid.
  destruct (Sql.Upvote_findOne uid postId d) as [u|] eqn:Hfind.
  - destruct (Upvote.value u =? realValue value); [split; assumption|].
    split; simpl.
    + intros x Hx. apply in_map_iff in Hx as (y & <- & Hy).
      unfold flip_row. destruct (Sql.upvote_matches uid postId y).
      * apply realValue_cases.
      * now apply Hval.
    + rewrite map_map. erewrite map_ext; [exact Hkeys|].
      intros a. apply flip_row_key.
  - destruct (Sql.post_exists postId d); [|split; assumption].
    split; simpl.
    + intros x Hx. apply in_app_or in Hx as [Hx|[<-|[]]].
      * now apply Hval.
      * apply realValue_cases.
    + rewrite map_app. simpl.
      eapply Permutation.Permutation_NoDup;
        [apply Permutation.Permutation_cons_append|].
      constructor; [|exact Hkeys].
      intros Hin. apply in_map_iff in Hin as (y & Hy & Hiny).
      unfold Sql.Upvote_findOne in Hfind.
      pose proof (find_none _ _ Hfind y Hiny) as Hno.
      change (upvote_key y = (uid, postId)) in Hy.
      apply upvote_matches_key in Hy. congruence.
Qed.

Lemma vote_keeps_sync (postId value uid : Z) (d : Db) :
  uid <> 0 -> ledger_ok d -> points_in_sync d ->
  points_in_sync (snd (PostResolver.vote postId value (Some uid) d)).
Proof.
  intros Huid [Hval Hkeys] Hsync. rewrite vote_unfold by exact Huid.
  destruct (Sql.Upvote_findOne uid postId d) as [u|] eqn:Hfind.
  - destruct (Z.eqb_spec (Upvote.value u) (realValue value)) as [|Hne];
      [exact Hsync|].
    simpl. apply points_in_sync_step; [exact Hsync|].
    intros pid'. unfold Sql.Upvote_findOne in Hfind.
    rewrite (vote_sum_flip _ _ _ _ _ u Hkeys Hfind).
    destruct (postId =? pid'); [|reflexivity].
    apply find_some in Hfind as [Hin _].
    destruct (Hval u Hin), (realValue_cases value); lia.
  - destruct (Sql.post_exists postId d); [|exact Hsync].
    simpl. apply points_in_sync_step; [exact Hsync|].
    intros pid'. rewrite vote_sum_snoc. simpl. reflexivity.
Qed.

(** After a call that returns, the row of the user and the post holds
    the value of the call. *)
Lemma vote_records_value (postId value uid : Z) (d : Db) :
  uid <> 0 ->
  fst (PostResolver.vote postId value (Some uid) d) = Returned true ->
  exists u,
    Sql.Upvote_findOne uid postId (snd (PostResolver.vote postId value (Some uid) d))
    = Some u
    /\ Upvote.value u = realValue value.
Proof.
  intros Huid. rewrite vote_unfold by exact Huid.
  destruct (Sql.Upvote_findOne uid postId d) as [u|] eqn:Hfind.
  - destruct (Z.eqb_spec (Upvote.value u) (realValue value)) as [He|Hne]; simpl.
    + intros _. exists u. auto.
    + intros _. exists (Upvote.with_value (realValue value) u).
      split; [|reflexivity].
      unfold Sql.Upvote_findOne in *. simpl. now apply find_flip_rows.
  - destruct (Sql.post_exists postId d); simpl; [|discriminate].
    intros _. exists (Upvote.mk (realValue value) uid postId).
    split; [|reflexivity].
    unfold Sql.Upvote_findOne in *. simpl. now apply find_snoc_fresh.
Qed.

Lemma vote_same_value_noop (postId value uid : Z) (d : Db) (u : Upvote.t) :
  uid <> 0 ->
  Sql.Upvote_findOne uid postId d = Some u ->
  Upvote.value u = realValue value ->
  PostResolver.vote postId value (Some uid) d = (Returned true, d).
Proof.
  intros Huid Hfind Hval. rewrite vote_unfold by exact Huid.
  rewrite Hfind, Hval, Z.eqb_refl. reflexivity.
Qed.

Lemma vote_throws_unchanged (postId value uid : Z) (d : Db) (e : string) :
  uid <> 0 ->
  fst (PostResolver.vote postId value (Some uid) d) = Thrown e ->
  snd (PostResolver.vote postId value (Some uid) d) = d.
Proof.
  intros Huid. rewrite vote_unfold by exact Huid.
  destruct (Sql.Upvote_findOne uid postId d) as [u|].
  - destruct (Upvote.value u =? realValue value); simpl; [reflexivity|discriminate].
  - destruct (Sql.post_exists postId d); simpl; [discriminate|reflexivity].
Qed.

Lemma bump_post_twice (a b pid : Z) (ps : list Post.t) :
  map (bump_post b pid) (map (bump_post a pid) ps) = map (bump_post (a + b) pid) ps.
Proof.
  rewrite map_map. apply map_ext. intros p. unfold bump_post.
  destruct (Post.id p =? pid) eqn:Hid; simpl; rewrite Hid; [|reflexivity].
  unfold Post.add_points. simpl. f_equal. lia.
Qed.

(** A call of [vote] that runs alone.  Such a call by an authenticated
    user, on a store in which every post carries the sum of its votes
    (the vote table having one row per user and post, with values +1 and
    -1), leaves a store in which every post carries the sum of its
    votes.  When the user has no
    row for the post, the row is added and the points of the post move
    by the value of the row, or the statement is refused and the store
    is as it was; when the row has the other value, the row takes the new
    value and the points move by the change of the value of the row; when
    the row has the same value neither table changes. *)
Theorem vote_keeps_points_equal_to_vote_sum :
  forall (postId value uid : Z) (d : Db),
    uid <> 0 -> ledger_ok d -> points_in_sync d ->
    let r := PostResolver.vote postId value (Some uid) d in
    ledger_ok (snd r)
    /\ points_in_sync (snd r)
    /\ user_table (snd r) = user_table d
    /\ match Sql.Upvote_findOne uid postId d with
       | None =>
           (fst r = Returned true
            /\ upvote_table (snd r)
               = upvote_table d ++ [Upvote.mk (realValue value) uid postId]
            /\ post_table (snd r)
               = map (bump_post (realValue value) postId) (post_table d))
           \/ (Sql.post_exists postId d = false
               /\ fst r = Thrown "23503" /\ snd r = d)
       | Some u =>
           fst r = Returned true
           /\ if Upvote.value u =? realValue value
              then snd r = d
              else upvote_table (snd r)
                   = map (flip_row (realValue value) postId uid) (upvote_table d)
                   /\ post_table (snd r)
                      = map (bump_post (realValue value - Upvote.value u) postId)
                            (post_table d)
       end.
Proof.
  intros postId value uid d Huid Hok Hsync r.
  split; [now apply vote_keeps_ledger|].
  split; [now apply vote_keeps_sync|].
  subst r. rewrite vote_unfold by exact Huid.
  destruct (Sql.Upvote_findOne uid postId d) as [u|] eqn:Hfind.
  - destruct (Z.eqb_spec (Upvote.value u) (realValue value)) as [He|Hne]; simpl.
    + auto.
    + split; [reflexivity|]. split; [reflexivity|]. split; [reflexivity|].
      replace (realValue value - Upvote.value u) with (2 * realValue value);
        [reflexivity|].
      unfold Sql.Upvote_findOne in Hfind. apply find_some in Hfind as [Hin _].
      destruct Hok as [Hval _].
      destruct (Hval u Hin), (realValue_cases value); lia.
  - destruct (Sql.post_exists postId d); simpl; auto.
Qed.

(** The posts stay in step with their votes along a run of calls, each
    by any authenticated user. *)
Lemma votes_keep_points_in_sync (calls : list (Z * Z * Z)) (d : Db) :
  Forall (fun c => fst (fst c) <> 0) calls ->
  ledger_ok d -> points_in_sync d ->
  ledger_ok (votes calls d) /\ points_in_sync (votes calls d).
Proof.
  revert d. induction calls as [|[[uid postId] value] rest IH]; intros d Hauth Hok Hsync.
  - split; assumption.
  - inversion Hauth as [|? ? Huid Hrest]; subst. simpl in Huid. simpl.
    apply IH; [exact Hrest| |].
    + now apply vote_keeps_ledger.
    + now apply vote_keeps_sync.
Qed.

Lemma no_votes_in_sync (d : Db) :
  upvote_table d = [] ->
  (forall p, In p (post_table d) -> Post.points p = 0) ->
  ledger_ok d /\ points_in_sync d.
Proof.
  intros Hno Hzero. unfold ledger_ok, points_in_sync. rewrite Hno. simpl.
  repeat split.
  - intros u [].
  - constructor.
  - intros p Hp. now rewrite (Hzero p Hp).
Qed.

(** C4, as amended.  When the row of the user and the post already holds
    the value of the call, [vote] returns with the store unchanged; a
    call repeated right after itself changes nothing; and two calls with
    +1 by a user who had no vote on an existing post add the one row and
    move the points by +1 in all. *)
Theorem vote_repeat_is_noop :
  forall (postId value uid : Z) (d : Db),
    uid <> 0 ->
    (forall u,
        Sql.Upvote_findOne uid postId d = Some u ->
        Upvote.value u = realValue value ->
        PostResolver.vote postId value (Some uid) d = (Returned true, d))
    /\ PostResolver.vote postId value (Some uid)
         (snd (PostResolver.vote postId value (Some uid) d))
       = PostResolver.vote postId value (Some uid) d
    /\ (Sql.Upvote_findOne uid postId d = None ->
        Sql.post_exists postId d = true ->
        let first := PostResolver.vote postId 1 (Some uid) d in
        let second := PostResolver.vote postId 1 (Some uid) (snd first) in
        fst first = Returned true
        /\ fst second = Returned true
        /\ post_table (snd second) = map (bump_post 1 postId) (post_table d)
        /\ upvote_table (snd second) = upvote_table d ++ [Upvote.mk 1 uid postId]).
Proof.
  intros postId value uid d Huid. split; [|split].
  - intros u Hfind Hval. now apply (vote_same_value_noop _ _ _ _ u).
  - destruct (PostResolver.vote postId value (Some uid) d) as [r d1] eqn:Hv.
    destruct r as [b|e].
    + assert (Hb : b = true).
      { rewrite vote_unfold in Hv by exact Huid.
        destruct (Sql.Upvote_findOne uid postId d) as [u|];
          [destruct (Upvote.value u =? realValue value)
          |destruct (Sql.post_exists postId d)];
          inversion Hv; reflexivity. }
      subst b.
      destruct (vote_records_value postId value uid d Huid) as (u & Hfind & Hval).
      { now rewrite Hv. }
      rewrite Hv in Hfind. cbn [fst snd] in Hfind. cbn [fst snd].
      now apply (vote_same_value_noop _ _ _ _ u).
    + pose proof (vote_throws_unchanged postId value uid d e Huid) as Hsame.
      rewrite Hv in Hsame. cbn [fst snd] in Hsame. cbn [fst snd].
      specialize (Hsame eq_refl). subst d1. exact Hv.
  - intros Hnone Hpost first second.
    assert (Hfirst : first
              = (Returned true,
                 mkDb (user_table d) (map (bump_post 1 postId) (post_table d))
                      (upvote_table d ++ [Upvote.mk 1 uid postId]) (user_id_seq d))).
    { subst first. rewrite vote_unfold by exact Huid.
      now rewrite Hnone, Hpost. }
    assert (Hsecond : second = first).
    { subst second. rewrite Hfirst. cbn [snd].
      apply (vote_same_value_noop _ _ _ _ (Upvote.mk 1 uid postId) Huid);
        [|reflexivity].
      unfold Sql.Upvote_findOne in *. simpl. now apply find_snoc_fresh. }
    rewrite Hsecond, Hfirst. simpl. auto.
Qed.

(** C5, as amended.  When the row of the user and the post holds the
    other value, [vote] returns, the row takes the new value and the
    points of the post move by twice the new value, all other rows and
    tables being as before.  A call with -1 after a call with +1 that
    returned moves the points by -2 from where the first call left them;
    for a user who had no vote on the post that is -1 from where they
    were before the first call. *)
Theorem vote_flip_moves_points_by_twice_value :
  forall (postId value uid : Z) (d : Db),
    uid <> 0 ->
    (forall u,
        Sql.Upvote_findOne uid postId d = Some u ->
        Upvote.value u <> realValue value ->
        PostResolver.vote postId value (Some uid) d
        = (Returned true,
           mkDb (user_table d)
                (map (bump_post (2 * realValue value) postId) (post_table d))
                (map (flip_row (realValue value) postId uid) (upvote_table d))
                (user_id_seq d))
        /\ Sql.Upvote_findOne uid postId
             (snd (PostResolver.vote postId value (Some uid) d))
           = Some (Upvote.with_value (realValue value) u))
    /\ (let first := PostResolver.vote postId 1 (Some uid) d in
        let second := PostResolver.vote postId (-1) (Some uid) (snd first) in
        fst first = Returned true ->
        fst second = Returned true
        /\ post_table (snd second)
           = map (bump_post (-2) postId) (post_table (snd first))
        /\ (Sql.Upvote_findOne uid postId d = None ->
            post_table (snd second) = map (bump_post (-1) postId) (post_table d))).
Proof.
  intros postId value uid d Huid. split.
  - intros u Hfind Hne.
    assert (Hv : PostResolver.vote postId value (Some uid) d
                 = (Returned true,
                    mkDb (user_table d)
                         (map (bump_post (2 * realValue value) postId) (post_table d))
                         (map (flip_row (realValue value) postId uid) (upvote_table d))
                         (user_id_seq d))).
    { rewrite vote_unfold by exact Huid. rewrite Hfind.
      destruct (Z.eqb_spec (Upvote.value u) (realValue value)); [tauto|reflexivity]. }
    split; [exact Hv|]. rewrite Hv. cbn [snd].
    unfold Sql.Upvote_findOne in *. simpl. now apply find_flip_rows.
  - intros first second Hret.
    destruct (vote_records_value postId 1 uid d Huid Hret) as (u & Hfind & Hval).
    fold first in Hfind. change (realValue 1) with 1 in Hval.
    assert (Hsecond : second
              = (Returned true,
                 mkDb (user_table (snd first))
                      (map (bump_post (-2) postId) (post_table (snd first)))
                      (map (flip_row (-1) postId uid) (upvote_table (snd first)))
                      (user_id_seq (snd first)))).
    { subst second. rewrite vote_unfold by exact Huid. rewrite Hfind, Hval.
      reflexivity. }
    rewrite Hsecond. cbn [fst snd post_table]. split; [reflexivity|].
    split; [reflexivity|].
    intros Hnone. subst first. rewrite vote_unfold in * by exact Huid.
    rewrite Hnone in *.
    destruct (Sql.post_exists postId d); [|discriminate].
    cbn [snd post_table]. change (realValue 1) with 1.
    now rewrite bump_post_twice.
Qed.

(** C5, the claim as it is written, fails for the first two votes of a
    user on a post: after +1 and then -1 the points are 1 below what
    they were before the first call, not 2 below. *)
Lemma vote_up_then_down_counterexample :
  let first := PostResolver.vote 2 1 (Some 1) feed_db in
  let second := PostResolver.vote 2 (-1) (Some 1) (snd first) in
  fst first = Returned true
  /\ fst second = Returned true
  /\ map Post.points (post_table feed_db) = [1; 0; 0]
  /\ map Post.points (post_table (snd first)) = [1; 1; 0]
  /\ map Post.points (post_table (snd second)) = [1; -1; 0]
  /\ -1 - 0 <> -2.
Proof. vm_compute. repeat split; discriminate. Qed.

(** The store of the feed is one in which the points follow the votes. *)
Lemma feed_db_ledger_ok : ledger_ok feed_db.
Proof.
  split.
  - intros u [<-|[]]. now left.
  - simpl. constructor; [intros []|constructor].
Qed.

Lemma feed_db_in_sync : points_in_sync feed_db.
Proof. intros p [<-|[<-|[<-|[]]]]; reflexivity. Qed.

Lemma vote_keeps_points_equal_to_vote_sum_witness :
  (2 <> 0 /\ ledger_ok feed_db /\ points_in_sync feed_db)
  /\ PostResolver.vote 1 (-1) (Some 2) feed_db
     = (Returned true,
        mkDb [bob; alice] [Post.add_points (-2) post_a; post_b; post_c]
             [Upvote.mk (-1) 2 1] 2)
  /\ points_in_sync (snd (PostResolver.vote 1 (-1) (Some 2) feed_db)).
Proof.
  split; [split; [lia|split; [exact feed_db_ledger_ok|exact feed_db_in_sync]]|].
  split; [vm_compute; reflexivity|].
  apply (vote_keeps_points_equal_to_vote_sum 1 (-1) 2 feed_db
           ltac:(lia) feed_db_ledger_ok feed_db_in_sync).
Defined.

Lemma vote_repeat_is_noop_witness :
  (1 <> 0
   /\ Sql.Upvote_findOne 1 2 feed_db = None
   /\ Sql.post_exists 2 feed_db = true)
  /\ map Post.points
       (post_table
          (snd (PostResolver.vote 2 1 (Some 1)
                  (snd (PostResolver.vote 2 1 (Some 1) feed_db)))))
     = [1; 1; 0]
  /\ post_table
       (snd (PostResolver.vote 2 1 (Some 1)
               (snd (PostResolver.vote 2 1 (Some 1) feed_db))))
     = map (bump_post 1 2) (post_table feed_db).
Proof.
  split; [split; [lia|split; reflexivity]|].
  split; [vm_compute; reflexivity|].
  destruct (vote_repeat_is_noop 2 1 1 feed_db ltac:(lia)) as (_ & _ & H).
  destruct (H eq_refl eq_refl) as (_ & _ & Hposts & _). exact Hposts.
Defined.

Lemma vote_flip_moves_points_by_twice_value_witness :
  (2 <> 0
   /\ Sql.Upvote_findOne 2 1 feed_db = Some (Upvote.mk 1 2 1)
   /\ Upvote.value (Upvote.mk 1 2 1) <> realValue (-1))
  /\ PostResolver.vote 1 (-1) (Some 2) feed_db
     = (Returned true,
        mkDb (user_table feed_db)
             (map (bump_post (2 * realValue (-1)) 1) (post_table feed_db))
             (map (flip_row (realValue (-1)) 1 2) (upvote_table feed_db))
             (user_id_seq feed_db))
  /\ map Post.points
       (post_table (snd (PostResolver.vote 1 (-1) (Some 2) feed_db)))
     = [-1; 0; 0].
Proof.
  split; [split; [lia|split; [reflexivity|vm_compute; lia]]|].
  split; [|vm_compute; reflexivity].
  destruct (vote_flip_moves_points_by_twice_value 1 (-1) 2 feed_db ltac:(lia))
    as (H & _).
  destruct (H (Upvote.mk 1 2 1) eq_refl ltac:(vm_compute; lia)) as (Hv & _).
  exact Hv.
Defined.

Lemma forgotPassword_returns_true_witness :
  (forall u, In u (user_table (db token_issued)) ->
             User.email u <> "nobody@example.com")
  /\ UserResolver.forgotPassword "forget-password:" "nobody@example.com" "t1"
       token_issued
     = (Returned true, token_issued)
  /\ fst (UserResolver.forgotPassword "forget-password:" "bob@example.com" "t1"
            token_issued)
     = Returned true
  /\ outbox (snd (UserResolver.forgotPassword "forget-password:" "bob@example.com"
                    "t1" token_issued))
     = [mkMail "bob@example.com" (reset_link "t1")].
Proof.
  assert (Hnone : forall u, In u (user_table (db token_issued)) ->
                            User.email u <> "nobody@example.com").
  { intros u [<-|[]]. discriminate. }
  split; [exact Hnone|].
  split; [|split; reflexivity].
  destruct (forgotPassword_returns_true "forget-password:" "nobody@example.com"
              "t1" token_issued) as (_ & _ & _ & H).
  exact (proj1 (H Hnone)).
Defined.

Lemma email_shown_to_owner_only_witness :
  (Some 1 = Some (User.id bob) /\ Some 2 <> Some (User.id bob))
  /\ UserResolver.email bob (Some 1) = "bob@example.com"
  /\ UserResolver.email bob (Some 2) = ""
  /\ UserResolver.email bob None = "".
Proof.
  split; [split; [reflexivity|discriminate]|].
  split; [|split].
  - exact (proj1 (email_shown_to_owner_only bob (Some 1)) eq_refl).
  - exact (proj2 (email_shown_to_owner_only bob (Some 2)) ltac:(discriminate)).
  - exact (proj2 (email_shown_to_owner_only bob None) ltac:(discriminate)).
Defined.

Lemma updatePost_returns_row_before_update_witness :
  (In post_b (post_table feed_db) /\ Post.id post_b = 2
   /\ forall p0, In p0 (post_table feed_db) -> Post.id p0 <> 7)
  /\ PostResolver.updatePost 2 (Given "edited") 400 feed_db
     = (Returned (Some post_b),
        mkDb [bob; alice]
             [post_a; Post.mk 2 "edited" "text of the second" 0 2 200 400; post_c]
             [Upvote.mk 1 2 1] 2)
  /\ (exists p,
         fst (PostResolver.updatePost 2 (Given "edited") 400 feed_db)
         = Returned (Some p)
         /\ Post.title p = "second")
  /\ PostResolver.updatePost 7 (Given "edited") 400 feed_db
     = (Returned None, feed_db).
Proof.
  assert (Hin : In post_b (post_table feed_db)) by (simpl; auto).
  assert (Hnone : forall p0, In p0 (post_table feed_db) -> Post.id p0 <> 7).
  { intros p0 [<-|[<-|[<-|[]]]]; discriminate. }
  split; [split; [exact Hin|split; [reflexivity|exact Hnone]]|].
  split; [vm_compute; reflexivity|].
  destruct (updatePost_returns_row_before_update 2 "edited" 400 feed_db)
    as [Hsome Hmiss].
  split.
  - destruct (Hsome post_b Hin eq_refl) as (p & Hp & _ & _ & Huniq & _).
    exists p. split; [exact Hp|].
    rewrite Huniq; [reflexivity|].
    simpl. repeat constructor; simpl; intuition discriminate.
  - destruct (updatePost_returns_row_before_update 7 "edited" 400 feed_db)
      as [_ Hmiss7].
    exact (Hmiss7 (Given "edited") Hnone).
Defined.

(** * Further properties of the resolvers *)

(** ** Numbers and their decimal text *)

Lemma digits_stop (acc : option Z) (rest : string) :
  stops_number rest -> digits 10 acc rest = acc.
Proof.
  destruct rest as [|c rest]; simpl; [reflexivity|].
  intros (Hc & _ & _). now rewrite Hc.
Qed.

Lemma append_cons (c : ascii) (s rest : string) :
  String c s +:+ rest = String c (s +:+ rest).
Proof. reflexivity. Qed.

Lemma digits_cons (radix : Z) (acc : option Z) (c : ascii) (rest : string) :
  digits radix acc (String c rest)
  = match digit_value radix c with
    | Some d =>
        digits radix
          (Some (radix * match acc with Some a => a | None => 0 end + d)) rest
    | None => acc
    end.
Proof. reflexivity. Qed.

Ltac eval_digit :=
  match goal with
  | |- context [digit_value 10 ?c] =>
      let v := eval vm_compute in (digit_value 10 c) in
      change (digit_value 10 c) with v
  end.

Lemma digits_of_uint_acc (d : Decimal.uint) (a : positive) (rest : string) :
  stops_number rest ->
  digits 10 (Some (Zpos a)) (NilEmpty.string_of_uint d +:+ rest)
  = Some (Zpos (Pos.of_uint_acc d a)).
Proof.
  intros Hrest. revert a.
  induction d; intros a; simpl NilEmpty.string_of_uint;
    [simpl; now apply digits_stop| ..];
    (rewrite append_cons, digits_cons; eval_digit; cbv iota;
     cbn [Pos.of_uint_acc]; rewrite <- IHd; f_equal; f_equal; lia).
Qed.

(** The digits of a numeral, read from nothing or from zero. *)
Lemma digits_of_uint (d : Decimal.uint) (acc : option Z) (rest : string) :
  d <> Decimal.Nil ->
  (acc = None \/ acc = Some 0) ->
  stops_number rest ->
  digits 10 acc (NilEmpty.string_of_uint d +:+ rest)
  = Some (Z.of_N (Pos.of_uint d)).
Proof.
  intros Hd Hacc Hrest.
  assert (H0 : match acc with Some a => a | None => 0 end = 0)
    by (destruct Hacc; subst; reflexivity).
  clear Hacc. revert acc H0 Hd.
  induction d; intros acc H0 Hd; [congruence| ..];
    simpl NilEmpty.string_of_uint; rewrite append_cons, digits_cons;
    eval_digit; cbv iota; rewrite H0.
  - destruct d.
    + simpl. now rewrite digits_stop.
    + apply IHd; [reflexivity|discriminate].
    + apply IHd; [reflexivity|discriminate].
    + apply IHd; [reflexivity|discriminate].
    + apply IHd; [reflexivity|discriminate].
    + apply IHd; [reflexivity|discriminate].
    + apply IHd; [reflexivity|discriminate].
    + apply IHd; [reflexivity|discriminate].
    + apply IHd; [reflexivity|discriminate].
    + apply IHd; [reflexivity|discriminate].
    + apply IHd; [reflexivity|discriminate].
  - apply (digits_of_uint_acc d 1 rest Hrest).
  - apply (digits_of_uint_acc d 2 rest Hrest).
  - apply (digits_of_uint_acc d 3 rest Hrest).
  - apply (digits_of_uint_acc d 4 rest Hrest).
  - apply (digits_of_uint_acc d 5 rest Hrest).
  - apply (digits_of_uint_acc d 6 rest Hrest).
  - apply (digits_of_uint_acc d 7 rest Hrest).
  - apply (digits_of_uint_acc d 8 rest Hrest).
  - apply (digits_of_uint_acc d 9 rest Hrest).
Qed.

Lemma parseInt_of_uint (d : Decimal.uint) (rest : string) :
  d <> Decimal.Nil ->
  stops_number rest ->
  parseInt (NilEmpty.string_of_uint d +:+ rest) = Some (Z.of_N (Pos.of_uint d))
  /\ parseInt (String "-" (NilEmpty.string_of_uint d +:+ rest))
     = Some (- Z.of_N (Pos.of_uint d)).
Proof.
  intros Hd Hrest.
  pose proof (digits_of_uint d None rest Hd (or_introl eq_refl) Hrest) as Hdig.
  assert (Hshape :
            parseInt (NilEmpty.string_of_uint d +:+ rest)
            = match digits 10 None (NilEmpty.string_of_uint d +:+ rest) with
              | Some n => Some (1 * n)
              | None => None
              end
            /\ parseInt (String "-" (NilEmpty.string_of_uint d +:+ rest))
               = match digits 10 None (NilEmpty.string_of_uint d +:+ rest) with
                 | Some n => Some (-1 * n)
                 | None => None
                 end).
  { clear Hdig. destruct d as [|d|d|d|d|d|d|d|d|d|d]; [congruence| ..];
      simpl NilEmpty.string_of_uint; rewrite append_cons;
      try (split; reflexivity).
    destruct d as [|d|d|d|d|d|d|d|d|d|d];
      simpl NilEmpty.string_of_uint; try rewrite append_cons;
      try (split; reflexivity).
    destruct rest as [|c rest]; [split; reflexivity|].
    destruct Hrest as (_ & Hx & HX).
    destruct c as [[] [] [] [] [] [] [] []];
      try (split; reflexivity); congruence. }
  destruct Hshape as [H1 H2]. rewrite H1, H2, Hdig. split; f_equal; lia.
Qed.

(** Reading back the decimal text of a number, whatever follows the
    text, gives the number. *)
Lemma parseInt_number_to_string_app (n : Z) (rest : string) :
  stops_number rest ->
  parseInt (Store.number_to_string n +:+ rest) = Some n.
Proof.
  intros Hrest. unfold Store.number_to_string.
  destruct n as [|p|p]; simpl Z.to_int.
  - destruct (parseInt_of_uint (Decimal.D0 Decimal.Nil) rest) as [H _];
      [discriminate|exact Hrest|exact H].
  - pose proof (DecimalPos.Unsigned.to_uint_nonnil p) as Hnil.
    destruct (parseInt_of_uint (Pos.to_uint p) rest Hnil Hrest) as [H _].
    rewrite DecimalPos.Unsigned.of_to in H.
    change (Z.of_N (N.pos p)) with (Z.pos p) in H. rewrite <- H.
    unfold NilZero.string_of_int, NilZero.string_of_uint.
    destruct (Pos.to_uint p); [congruence|reflexivity..].
  - pose proof (DecimalPos.Unsigned.to_uint_nonnil p) as Hnil.
    destruct (parseInt_of_uint (Pos.to_uint p) rest Hnil Hrest) as [_ H].
    rewrite DecimalPos.Unsigned.of_to in H.
    change (- Z.of_N (N.pos p)) with (Z.neg p) in H. rewrite <- H.
    unfold NilZero.string_of_int, NilZero.string_of_uint.
    destruct (Pos.to_uint p); [congruence|reflexivity..].
Qed.

Lemma append_empty (s : string) : s +:+ "" = s.
Proof.
  induction s as [|c s IH]; [reflexivity|]. now rewrite append_cons, IH.
Qed.

Lemma parseInt_number_to_string (n : Z) :
  parseInt (Store.number_to_string n) = Some n.
Proof.
  rewrite <- (append_empty (Store.number_to_string n)).
  now apply parseInt_number_to_string_app.
Qed.

(** ** Snippets and single posts *)

Lemma substring0_length (n : nat) (s : string) :
  String.length (String.substring 0 n s) = Nat.min n (String.length s).
Proof.
  revert s. induction n as [|n IH]; intros [|c s]; simpl; auto.
Qed.

Lemma substring0_prefix (n : nat) (s : string) :
  String.prefix (String.substring 0 n s) s = true.
Proof.
  revert s. induction n as [|n IH]; intros [|c s]; simpl; auto.
  destruct (Ascii.ascii_dec c c); [apply IH|congruence].
Qed.

Lemma substring0_all (n : nat) (s : string) :
  (String.length s <= n)%nat -> String.substring 0 n s = s.
Proof.
  revert s. induction n as [|n IH]; intros [|c s]; simpl; auto.
  - lia.
  - intros H. f_equal. apply IH. lia.
Qed.

(** X1.  The snippet of a post is the beginning of its text, cut at 50
    characters: it is the whole text when that is no longer than 50, and
    has exactly 50 characters otherwise. *)
Theorem textSnippet_is_prefix_of_at_most_50 :
  forall (p : Post.t),
    String.prefix (PostResolver.textSnippet p) (Post.text p) = true
    /\ String.length (PostResolver.textSnippet p)
       = Nat.min 50 (String.length (Post.text p))
    /\ ((String.length (Post.text p) <= 50)%nat ->
        PostResolver.textSnippet p = Post.text p).
Proof.
  intros p. unfold PostResolver.textSnippet. split; [|split].
  - apply substring0_prefix.
  - apply substring0_length.
  - apply substring0_all.
Qed.

Lemma textSnippet_is_prefix_of_at_most_50_witness :
  (String.length (Post.text post_a) <= 50)%nat
  /\ PostResolver.textSnippet post_a = "text of the first".
Proof.
  split; [vm_compute; lia|].
  apply (textSnippet_is_prefix_of_at_most_50 post_a). vm_compute. lia.
Defined.

Lemma find_retitled (id id' : Z) (title : string) (now : Z) (ps : list Post.t) :
  find (fun p => Post.id p =? id')
       (map (fun p => if Post.id p =? id then Post.with_title title now p else p) ps)
  = option_map (fun p => if Post.id p =? id then Post.with_title title now p else p)
      (find (fun p => Post.id p =? id') ps).
Proof.
  induction ps as [|a ps IH]; simpl; [reflexivity|].
  assert (Hid : Post.id (if Post.id a =? id then Post.with_title title now a else a)
                = Post.id a) by (destruct (Post.id a =? id); reflexivity).
  rewrite Hid. destruct (Post.id a =? id'); [reflexivity|exact IH].
Qed.

(** X2.  After [updatePost] with a title, [post] gives the post with the new
    title (and the time of the update), its other fields as they were;
    the posts with another id are read as before.  Without a title
    nothing is written. *)
Theorem post_after_updatePost :
  forall (id : Z) (title : string) (now : Z) (d : Db),
    (forall p, PostResolver.post id d = Some p ->
       PostResolver.post id (snd (PostResolver.updatePost id (Given title) now d))
       = Some (Post.mk (Post.id p) title (Post.text p) (Post.points p)
                       (Post.creatorId p) (Post.createdAt p) now))
    /\ (forall id', id' <> id ->
          PostResolver.post id' (snd (PostResolver.updatePost id (Given title) now d))
          = PostResolver.post id' d)
    /\ snd (PostResolver.updatePost id Undefined now d) = d.
Proof.
  intros id title now d. unfold PostResolver.post, PostResolver.updatePost.
  split; [|split].
  - intros p Hp. rewrite Hp. simpl. unfold Sql.Post_findOne in *. simpl.
    rewrite find_retitled, Hp. simpl.
    apply find_some in Hp as [_ Hid]. now rewrite Hid.
  - intros id' Hne. destruct (Sql.Post_findOne id d) as [p|]; [|reflexivity].
    simpl. unfold Sql.Post_findOne. simpl. rewrite find_retitled.
    destruct (find (fun p0 => Post.id p0 =? id') (post_table d)) as [q|] eqn:Hq;
      [|reflexivity].
    simpl. apply find_some in Hq as [_ Hid]. apply Z.eqb_eq in Hid.
    destruct (Z.eqb_spec (Post.id q) id); [congruence|reflexivity].
  - destruct (Sql.Post_findOne id d); reflexivity.
Qed.

Lemma post_after_updatePost_witness :
  PostResolver.post 2 feed_db = Some post_b
  /\ PostResolver.post 2 (snd (PostResolver.updatePost 2 (Given "edited") 400 feed_db))
     = Some (Post.mk 2 "edited" "text of the second" 0 2 200 400)
  /\ PostResolver.post 1 (snd (PostResolver.updatePost 2 (Given "edited") 400 feed_db))
     = Some post_a.
Proof.
  split; [reflexivity|].
  destruct (post_after_updatePost 2 "edited" 400 feed_db) as (Hsame & Hother & _).
  split.
  - exact (Hsame post_b eq_refl).
  - rewrite (Hother 1 ltac:(lia)). reflexivity.
Defined.

(** ** One call of [vote], and runs of calls *)

Lemma bump_post_zero (pid : Z) (ps : list Post.t) :
  map (bump_post 0 pid) ps = ps.
Proof.
  rewrite <- (map_id ps) at 2. apply map_ext. intros p. unfold bump_post.
  destruct (Post.id p =? pid); [|reflexivity].
  destruct p. unfold Post.add_points. simpl. f_equal. lia.
Qed.

Lemma vote_unauthenticated (postId value : Z) (session : option Z) (d : Db) :
  truthy_number session = false ->
  PostResolver.vote postId value session d = (Thrown "not authenticated", d).
Proof.
  intros H. unfold PostResolver.vote, PostResolver.isAuth.
  destruct session as [uid|]; [|reflexivity]. now rewrite H.
Qed.

Lemma truthy_number_cases (session : option Z) :
  truthy_number session = false \/ exists uid, session = Some uid /\ uid <> 0.
Proof.
  destruct session as [uid|]; [|now left]. simpl.
  destruct (Z.eqb_spec uid 0); [now left|right; eauto].
Qed.

Lemma filter_others_flip (v pid uid : Z) (vs : list Upvote.t) :
  List.filter (fun u => negb (Sql.upvote_matches uid pid u))
    (map (flip_row v pid uid) vs)
  = List.filter (fun u => negb (Sql.upvote_matches uid pid u)) vs.
Proof.
  induction vs as [|a vs IH]; simpl; [reflexivity|].
  unfold flip_row at 1 2.
  destruct (Sql.upvote_matches uid pid a) eqn:Hm.
  - assert (Hm' : Sql.upvote_matches uid pid (Upvote.with_value v a) = true)
      by exact Hm.
    rewrite Hm'. simpl. exact IH.
  - rewrite Hm. simpl. now rewrite IH.
Qed.

Lemma filter_others_snoc (v pid uid : Z) (vs : list Upvote.t) :
  List.filter (fun u => negb (Sql.upvote_matches uid pid u))
    (vs ++ [Upvote.mk v uid pid])
  = List.filter (fun u => negb (Sql.upvote_matches uid pid u)) vs.
Proof.
  rewrite List.filter_app. simpl.
  assert (Hm : Sql.upvote_matches uid pid (Upvote.mk v uid pid) = true).
  { unfold Sql.upvote_matches. simpl. now rewrite !Z.eqb_refl. }
  rewrite Hm. simpl. apply app_nil_r.
Qed.

(** X3.  A call of [vote], whatever its arguments and session: a value other
    than -1 counts as +1; the points of the posts with the id of the call
    move by one amount between -2 and 2 and no other post changes; the
    vote rows of other users, and of this user on other posts, are as
    before, and so is the user table. *)
Theorem vote_step_is_bounded_and_local :
  forall (postId value : Z) (session : option Z) (d : Db),
    (value <> -1 ->
     PostResolver.vote postId value session d
     = PostResolver.vote postId 1 session d)
    /\ (exists delta,
           -2 <= delta <= 2
           /\ post_table (snd (PostResolver.vote postId value session d))
              = map (bump_post delta postId) (post_table d))
    /\ (forall uid, session = Some uid ->
          List.filter (fun u => negb (Sql.upvote_matches uid postId u))
            (upvote_table (snd (PostResolver.vote postId value session d)))
          = List.filter (fun u => negb (Sql.upvote_matches uid postId u))
              (upvote_table d))
    /\ (session = None ->
        snd (PostResolver.vote postId value session d) = d)
    /\ user_table (snd (PostResolver.vote postId value session d)) = user_table d.
Proof.
  intros postId value session d. split.
  { intros Hv. unfold PostResolver.vote.
    now rewrite (proj2 (Z.eqb_neq value (-1)) Hv). }
  destruct (truthy_number_cases session) as [Hno|(uid & -> & Huid)].
  - rewrite (vote_unauthenticated _ _ _ _ Hno). simpl.
    repeat split; auto.
    exists 0. split; [lia|]. now rewrite bump_post_zero.
  - rewrite vote_unfold by exact Huid.
    pose proof (realValue_cases value) as Hrv.
    destruct (Sql.Upvote_findOne uid postId d) as [u|].
    + destruct (Upvote.value u =? realValue value); simpl.
      * repeat split; auto; try discriminate.
        exists 0. split; [lia|]. now rewrite bump_post_zero.
      * repeat split; auto; try discriminate.
        -- exists (2 * realValue value). split; [lia|reflexivity].
        -- intros uid' Huid'. inversion Huid'; subst uid'.
           apply filter_others_flip.
    + destruct (Sql.post_exists postId d); simpl.
      * repeat split; auto; try discriminate.
        -- exists (realValue value). split; [lia|reflexivity].
        -- intros uid' Huid'. inversion Huid'; subst uid'.
           apply filter_others_snoc.
      * repeat split; auto; try discriminate.
        exists 0. split; [lia|]. now rewrite bump_post_zero.
Qed.

Lemma vote_step_is_bounded_and_local_witness :
  (1000 <> -1 /\ Some 1 = Some 1)
  /\ PostResolver.vote 2 1000 (Some 1) feed_db
     = PostResolver.vote 2 1 (Some 1) feed_db
  /\ map Post.points (post_table (snd (PostResolver.vote 2 1000 (Some 1) feed_db)))
     = [1; 1; 0]
  /\ List.filter (fun u => negb (Sql.upvote_matches 1 2 u))
       (upvote_table (snd (PostResolver.vote 2 1000 (Some 1) feed_db)))
     = upvote_table feed_db.
Proof.
  split; [split; [lia|reflexivity]|].
  destruct (vote_step_is_bounded_and_local 2 1000 (Some 1) feed_db)
    as (Hnorm & _ & Hrows & _).
  split; [exact (Hnorm ltac:(lia))|].
  split; [vm_compute; reflexivity|].
  rewrite (Hrows 1 eq_refl). reflexivity.
Defined.

Lemma post_exists_map (f : Post.t -> Post.t) (pid : Z) (ps : list Post.t) :
  (forall p, Post.id (f p) = Post.id p) ->
  existsb (fun p => Post.id p =? pid) (map f ps)
  = existsb (fun p => Post.id p =? pid) ps.
Proof.
  intros Hf. induction ps as [|a ps IH]; simpl; [reflexivity|].
  now rewrite Hf, IH.
Qed.

Lemma vote_sum_no_rows (pid : Z) (vs : list Upvote.t) :
  (forall u, In u vs -> Upvote.postId u <> pid) -> vote_sum pid vs = 0.
Proof.
  induction vs as [|a vs IH]; intros H; [reflexivity|].
  rewrite vote_sum_cons, IH by (intros u Hu; apply H; now right).
  rewrite (proj2 (Z.eqb_neq _ _) (H a (or_introl eq_refl))). reflexivity.
Qed.

Lemma vote_sum_bounded (pid : Z) (vs : list Upvote.t) :
  (forall u, In u vs -> Upvote.value u = 1 \/ Upvote.value u = -1) ->
  Z.abs (vote_sum pid vs) <= Z.of_nat (vote_count pid vs).
Proof.
  induction vs as [|a vs IH]; intros H; [unfold vote_sum, vote_count; simpl; lia|].
  rewrite vote_sum_cons. unfold vote_count in *. simpl.
  specialize (IH (fun u Hu => H u (or_intror Hu))).
  destruct (Upvote.postId a =? pid); simpl length.
  - destruct (H a (or_introl eq_refl)) as [Hv|Hv]; rewrite Hv; lia.
  - lia.
Qed.

Lemma vote_keeps_references (postId value : Z) (session : option Z) (d : Db) :
  votes_reference_posts d ->
  votes_reference_posts (snd (PostResolver.vote postId value session d)).
Proof.
  intros Href.
  destruct (truthy_number_cases session) as [Hno|(uid & -> & Huid)].
  - now rewrite (vote_unauthenticated _ _ _ _ Hno).
  - rewrite vote_unfold by exact Huid.
    destruct (Sql.Upvote_findOne uid postId d) as [u|].
    + destruct (Upvote.value u =? realValue value); [exact Href|].
      intros x Hx. simpl in Hx. apply in_map_iff in Hx as (y & <- & Hy).
      unfold Sql.post_exists. simpl.
      rewrite post_exists_map by apply bump_post_id.
      replace (Upvote.postId (flip_row (realValue value) postId uid y))
        with (Upvote.postId y)
        by (unfold flip_row; destruct (Sql.upvote_matches uid postId y); reflexivity).
      now apply Href.
    + destruct (Sql.post_exists postId d) eqn:Hex; [|exact Href].
      intros x Hx. simpl in Hx. unfold Sql.post_exists. simpl.
      rewrite post_exists_map by apply bump_post_id.
      apply in_app_or in Hx as [Hx|[<-|[]]]; [now apply Href|exact Hex].
Qed.

Lemma vote_keeps_store_ok (postId value : Z) (session : option Z) (d : Db) :
  store_ok d -> store_ok (snd (PostResolver.vote postId value session d)).
Proof.
  intros (Hl & Hs & Hr).
  split; [|split; [|now apply vote_keeps_references]].
  - destruct (truthy_number_cases session) as [Hno|(uid & -> & Huid)].
    + now rewrite (vote_unauthenticated _ _ _ _ Hno).
    + now apply vote_keeps_ledger.
  - destruct (truthy_number_cases session) as [Hno|(uid & -> & Huid)].
    + now rewrite (vote_unauthenticated _ _ _ _ Hno).
    + now apply vote_keeps_sync.
Qed.

(** What [createPost] does to the store: nothing, or one row at the end
    of the post table, with a key that no post had. *)
Lemma createPost_store (input : PostInput.t) (session : option Z) (id now : Z) (d : Db) :
  snd (PostResolver.createPost input session id now d) = d
  \/ exists uid,
      session = Some uid /\ uid <> 0
      /\ Sql.post_exists id d = false
      /\ existsb (fun u => User.id u =? uid) (user_table d) = true
      /\ PostResolver.createPost input session id now d
         = (Returned (Post.mk id (PostInput.title input) (PostInput.text input)
                              0 uid now now),
            set_post_table
              (post_table d ++ [Post.mk id (PostInput.title input)
                                        (PostInput.text input) 0 uid now now]) d).
Proof.
  unfold PostResolver.createPost, PostResolver.isAuth, Sql.insert_post.
  destruct session as [uid|]; [|now left]. simpl.
  destruct (Z.eqb_spec uid 0) as [|Huid]; simpl; [now left|].
  destruct (Sql.post_exists id d) eqn:Hex; [now left|].
  destruct (existsb (fun u => User.id u =? uid) (user_table d)) eqn:Hu; simpl;
    [|now left].
  right. exists uid. auto.
Qed.

Lemma createPost_keeps_store_ok (input : PostInput.t) (session : option Z)
    (id now : Z) (d : Db) :
  store_ok d -> store_ok (snd (PostResolver.createPost input session id now d)).
Proof.
  intros (Hl & Hs & Hr).
  destruct (createPost_store input session id now d)
    as [->|(uid & _ & _ & Hex & _ & ->)]; [exact (conj Hl (conj Hs Hr))|].
  simpl. split; [exact Hl|]. split.
  - intros p Hp. simpl in *. apply in_app_or in Hp as [Hp|[<-|[]]].
    + now apply Hs.
    + simpl. symmetry. apply vote_sum_no_rows. intros u Hu Heq.
      specialize (Hr u Hu). rewrite Heq in Hr. congruence.
  - intros u Hu. simpl in *. unfold Sql.post_exists. simpl.
    rewrite existsb_app. apply orb_true_iff. left. now apply Hr.
Qed.

Lemma updatePost_keeps_store_ok (id : Z) (title : Nullable string) (now : Z) (d : Db) :
  store_ok d -> store_ok (snd (PostResolver.updatePost id title now d)).
Proof.
  intros (Hl & Hs & Hr). unfold PostResolver.updatePost.
  destruct (Sql.Post_findOne id d) as [p|]; [|exact (conj Hl (conj Hs Hr))].
  destruct title as [| |s]; [exact (conj Hl (conj Hs Hr))..|].
  simpl. split; [exact Hl|]. split.
  - intros q Hq. simpl in *. apply in_map_iff in Hq as (q0 & <- & Hq0).
    destruct (Post.id q0 =? id); simpl; now apply Hs.
  - intros u Hu. simpl in *. unfold Sql.post_exists, Sql.Post_update_title. simpl.
    rewrite post_exists_map; [now apply Hr|].
    intros q. destruct (Post.id q =? id); reflexivity.
Qed.

(** X4.  Along any run of [vote], [createPost] and [updatePost], with any
    arguments and sessions, from a store in which the points follow the
    votes (an empty post table and vote table, for one), every post
    carries the sum of the values of its vote rows, and that is at most
    the number of those rows in absolute value. *)
Theorem post_mutations_keep_points_in_step :
  forall (ms : list Mutation) (d : Db),
    store_ok d ->
    store_ok (mutations ms d)
    /\ forall p, In p (post_table (mutations ms d)) ->
         Post.points p = vote_sum (Post.id p) (upvote_table (mutations ms d))
         /\ Z.abs (Post.points p)
            <= Z.of_nat (vote_count (Post.id p) (upvote_table (mutations ms d))).
Proof.
  intros ms d Hok.
  assert (Hrun : store_ok (mutations ms d)).
  { revert d Hok. unfold mutations.
    induction ms as [|m ms IH]; intros d Hok; [exact Hok|].
    simpl. apply IH. destruct m; simpl.
    - now apply vote_keeps_store_ok.
    - now apply createPost_keeps_store_ok.
    - now apply updatePost_keeps_store_ok. }
  split; [exact Hrun|].
  destruct Hrun as ((Hval & _) & Hs & _). intros p Hp.
  split; [now apply Hs|]. rewrite (Hs p Hp). now apply vote_sum_bounded.
Qed.

Lemma empty_tables_store_ok (us : list User.t) (seq : Z) :
  store_ok (mkDb us [] [] seq).
Proof.
  split; [split|split].
  - intros u [].
  - constructor.
  - intros p [].
  - intros u [].
Qed.

Lemma post_mutations_keep_points_in_step_witness :
  store_ok (mkDb [bob; alice] [] [] 2)
  /\ map Post.points
       (post_table
          (mutations
             [CallCreatePost (Some 1) (PostInput.mk "t" "x") 1 10;
              CallVote (Some 1) 1 1; CallVote (Some 2) 1 (-1);
              CallVote (Some 2) 1 7; CallUpdatePost 1 (Given "u") 20;
              CallVote None 1 1]
             (mkDb [bob; alice] [] [] 2)))
     = [2]
  /\ store_ok
       (mutations
          [CallCreatePost (Some 1) (PostInput.mk "t" "x") 1 10;
           CallVote (Some 1) 1 1; CallVote (Some 2) 1 (-1);
           CallVote (Some 2) 1 7; CallUpdatePost 1 (Given "u") 20;
           CallVote None 1 1]
          (mkDb [bob; alice] [] [] 2)).
Proof.
  split; [apply empty_tables_store_ok|].
  split; [vm_compute; reflexivity|].
  apply (post_mutations_keep_points_in_step _ _ (empty_tables_store_ok _ _)).
Defined.

(** ** Pages of the feed *)

Lemma page_of_sorted_rows (limit : Z) (voter bound : option Z) (d : Db) :
  0 <= limit ->
  slice0 (Z.min 50 limit) (Sql.select_rows voter bound (Z.min 50 limit + 1) d)
  = firstn (Z.to_nat (Z.min 50 limit))
      (merge_sort Sql.newer_first
         (List.filter
            (fun r => match bound with
                      | Some t => Post.createdAt (Sql.post r) <? t
                      | None => true
                      end)
            (Sql.join_rows voter d))).
Proof.
  intros Hl. rewrite slice0_nonneg by lia. unfold Sql.select_rows.
  rewrite firstn_firstn. f_equal. lia.
Qed.

Lemma beyond_prefix_is_older (S : list Sql.PostRow) (k : nat) (r q : Sql.PostRow) :
  StronglySorted Sql.newer_first S ->
  In r S -> ~ In r (firstn k S) -> In q (firstn k S) ->
  row_time r <= row_time q.
Proof.
  intros Hs Hr Hnot Hq. rewrite <- (firstn_skipn k S) in Hs, Hr.
  apply in_app_or in Hr as [Hr|Hr]; [contradiction|].
  apply (StronglySorted_app_1_elem_of _ _ _ q r Hs); now apply list_elem_of_In.
Qed.

Lemma In_merge_sort (l : list Sql.PostRow) (r : Sql.PostRow) :
  In r (merge_sort Sql.newer_first l) <-> In r l.
Proof.
  rewrite <- !list_elem_of_In. now rewrite merge_sort_Permutation.
Qed.

(** X5.  Following the cursor.  When the first page (no cursor) ends with a
    row and the next call is given the time of creation of that row as
    cursor, the call returns a page whose posts are all strictly older
    than every post of the first page, so that no post comes twice.
    When no two rows of the feed have the same time of creation, a row
    that is on neither page is strictly older than every post of both:
    nothing is skipped.  And when the first page says that there is no
    more, it has every row of the feed. *)
Theorem second_page_continues_first :
  forall (limit : Z) (session : option Z) (d : Db) (c : string) (t : Z)
         (page1 : PaginatedPosts.t) (init : list Sql.PostRow) (lastrow : Sql.PostRow),
    0 <= limit ->
    PostResolver.posts limit None session d = Returned page1 ->
    PaginatedPosts.posts page1 = init ++ [lastrow] ->
    c <> "" -> parseInt c = Some t -> t = row_time lastrow ->
    Z.abs t <= 8640000000000000 ->
    exists page2,
      PostResolver.posts limit (Some c) session d = Returned page2
      /\ (forall r1 r2,
             In r1 (PaginatedPosts.posts page1) ->
             In r2 (PaginatedPosts.posts page2) ->
             row_time r2 < row_time r1)
      /\ ((forall a b,
              In a (Sql.join_rows (voter_of session) d) ->
              In b (Sql.join_rows (voter_of session) d) ->
              row_time a = row_time b -> a = b) ->
          forall r q,
            In r (Sql.join_rows (voter_of session) d) ->
            ~ In r (PaginatedPosts.posts page1) ->
            ~ In r (PaginatedPosts.posts page2) ->
            In q (PaginatedPosts.posts page1 ++ PaginatedPosts.posts page2) ->
            row_time r < row_time q)
      /\ (PaginatedPosts.hasMore page1 = false ->
          forall r, In r (Sql.join_rows (voter_of session) d) ->
                    In r (PaginatedPosts.posts page1)).
Proof.
  intros limit session d c t page1 init lastrow Hlimit Hp1 Hlast Hc Hparse Ht Hrange.
  set (lim := Z.to_nat (Z.min 50 limit)).
  set (S1 := merge_sort Sql.newer_first (Sql.join_rows (voter_of session) d)).
  set (S2 := merge_sort Sql.newer_first
               (List.filter (fun r => Post.createdAt (Sql.post r) <? t)
                  (Sql.join_rows (voter_of session) d))).
  assert (Hs1 : StronglySorted Sql.newer_first S1)
    by (apply StronglySorted_merge_sort; apply _).
  assert (Hs2 : StronglySorted Sql.newer_first S2)
    by (apply StronglySorted_merge_sort; apply _).
  (* the first page *)
  assert (H1 : PaginatedPosts.posts page1 = firstn lim S1
               /\ PaginatedPosts.hasMore page1
                  = (Z.of_nat (length (firstn (Z.to_nat (Z.min 50 limit + 1)) S1))
                     =? Z.min 50 limit + 1)).
  { unfold PostResolver.posts in Hp1. rewrite posts_query_unfold in Hp1.
    destruct (Z.ltb_spec (Z.min 50 limit + 1) 0) as [|_]; [lia|].
    inversion Hp1; subst page1; clear Hp1. simpl. split.
    - rewrite (page_of_sorted_rows limit (voter_of session) None d Hlimit).
      now rewrite filter_all.
    - unfold Sql.select_rows. now rewrite filter_all. }
  destruct H1 as [Hrows1 Hmore1].
  (* the second page *)
  assert (Hdate : Date (parseInt c) = Some t).
  { rewrite Hparse. simpl. destruct (Z.leb_spec (Z.abs t) 8640000000000000); [reflexivity|lia]. }
  assert (H2 : exists page2,
             PostResolver.posts limit (Some c) session d = Returned page2
             /\ PaginatedPosts.posts page2 = firstn lim S2).
  { unfold PostResolver.posts. rewrite posts_query_unfold.
    destruct (Z.ltb_spec (Z.min 50 limit + 1) 0) as [|_]; [lia|].
    destruct c as [|a rest]; [congruence|]. rewrite Hdate.
    eexists. split; [reflexivity|]. simpl.
    apply (page_of_sorted_rows limit (voter_of session) (Some t) d Hlimit). }
  destruct H2 as (page2 & Hp2 & Hrows2).
  exists page2. split; [exact Hp2|].
  (* the last row of the first page is its oldest *)
  assert (Holdest : forall r1, In r1 (PaginatedPosts.posts page1) -> t <= row_time r1).
  { intros r1 Hr1. rewrite Hlast in Hr1.
    apply in_app_or in Hr1 as [Hr1|[<-|[]]]; [|lia].
    assert (Hs : StronglySorted Sql.newer_first (init ++ [lastrow])).
    { rewrite <- Hlast, Hrows1. now apply StronglySorted_firstn. }
    pose proof (StronglySorted_app_1_elem_of _ _ _ r1 lastrow Hs) as Hle.
    unfold Sql.newer_first in Hle. unfold row_time in *. subst t.
    apply Hle; apply list_elem_of_In; simpl; auto. }
  assert (Holder : forall r2, In r2 S2 -> row_time r2 < t /\ In r2 (Sql.join_rows (voter_of session) d)).
  { intros r2 Hr2. unfold S2 in Hr2. apply (proj1 (In_merge_sort _ _)) in Hr2.
    apply filter_In in Hr2 as [Hin Hlt].
    split; [now apply Z.ltb_lt|exact Hin]. }
  split; [|split].
  - intros r1 r2 Hr1 Hr2. rewrite Hrows2 in Hr2. apply In_firstn in Hr2.
    destruct (Holder r2 Hr2) as [Hlt _]. specialize (Holdest r1 Hr1). lia.
  - intros Hdistinct r q Hr Hn1 Hn2 Hq.
    assert (Hstrict : forall q', In q' (Sql.join_rows (voter_of session) d) -> q' <> r ->
                                 row_time r <= row_time q' -> row_time r < row_time q').
    { intros q' Hq' Hne Hle.
      destruct (Z.eq_dec (row_time r) (row_time q')) as [Heq|]; [|lia].
      exfalso. apply Hne. symmetry. now apply Hdistinct. }
    assert (Hr1 : forall q', In q' (PaginatedPosts.posts page1) -> row_time r < row_time q').
    { intros q' Hq'. apply Hstrict.
      - rewrite Hrows1 in Hq'. apply In_firstn in Hq'. unfold S1 in Hq'.
        now apply (proj1 (In_merge_sort _ _)) in Hq'.
      - intros ->. contradiction.
      - rewrite Hrows1 in Hq', Hn1.
        apply (beyond_prefix_is_older S1 lim r q' Hs1); auto.
        unfold S1. now apply (proj2 (In_merge_sort _ _)). }
    apply in_app_or in Hq as [Hq|Hq]; [now apply Hr1|].
    apply Hstrict.
    + rewrite Hrows2 in Hq. apply In_firstn in Hq. now apply Holder.
    + intros ->. contradiction.
    + rewrite Hrows2 in Hq, Hn2.
      apply (beyond_prefix_is_older S2 lim r q Hs2); auto.
      unfold S2. apply (proj2 (In_merge_sort _ _)). apply filter_In.
      split; [exact Hr|].
      apply Z.ltb_lt.
      assert (Hlastin : In lastrow (PaginatedPosts.posts page1))
        by (rewrite Hlast; apply in_or_app; right; simpl; auto).
      specialize (Hr1 lastrow Hlastin). unfold row_time in *. lia.
  - intros Hno r Hr. rewrite Hmore1 in Hno. apply Z.eqb_neq in Hno.
    rewrite length_firstn in Hno. rewrite Hrows1.
    assert (Hlen : (length S1 <= lim)%nat) by (subst lim; lia).
    rewrite firstn_all2 by exact Hlen. unfold S1.
    now apply (proj2 (In_merge_sort _ _)).
Qed.

Lemma second_page_continues_first_witness :
  (0 <= 1
   /\ PostResolver.posts 1 None None feed_db
      = Returned
          (PaginatedPosts.mk
             [Sql.mkPostRow post_c (Sql.mkCreator 1 "bob" "bob@example.com" 0 0) None]
             true)
   /\ "300" <> "" /\ parseInt "300" = Some 300
   /\ 300 = row_time
              (Sql.mkPostRow post_c (Sql.mkCreator 1 "bob" "bob@example.com" 0 0) None)
   /\ Z.abs 300 <= 8640000000000000)
  /\ map (fun r => Post.id (Sql.post r))
         (rows_of (PostResolver.posts_query 1 (Some "300") None feed_db))
     = [2; 1]
  /\ exists page2,
      PostResolver.posts 1 (Some "300") None feed_db = Returned page2
      /\ forall r1 r2,
          In r1 [Sql.mkPostRow post_c (Sql.mkCreator 1 "bob" "bob@example.com" 0 0) None] ->
          In r2 (PaginatedPosts.posts page2) ->
          row_time r2 < row_time r1.
Proof.
  assert (H1 : PostResolver.posts 1 None None feed_db
               = Returned
                   (PaginatedPosts.mk
                      [Sql.mkPostRow post_c
                         (Sql.mkCreator 1 "bob" "bob@example.com" 0 0) None]
                      true)) by (vm_compute; reflexivity).
  split.
  { split; [lia|]. split; [exact H1|]. split; [discriminate|].
    split; [reflexivity|]. split; [reflexivity|]. vm_compute. discriminate. }
  split; [vm_compute; reflexivity|].
  destruct (second_page_continues_first 1 None feed_db "300" 300 _ []
              (Sql.mkPostRow post_c (Sql.mkCreator 1 "bob" "bob@example.com" 0 0) None)
              ltac:(lia) H1 eq_refl ltac:(discriminate) eq_refl eq_refl
              ltac:(vm_compute; discriminate))
    as (page2 & Hp2 & Holder & _).
  exists page2. split; [exact Hp2|exact Holder].
Defined.

(** ** The rows of a page *)

Lemma in_join_rows (voter : option Z) (d : Db) (r : Sql.PostRow) :
  In r (Sql.join_rows voter d) ->
  In (Sql.post r) (post_table d)
  /\ (exists u,
         In u (user_table d) /\ User.id u = Post.creatorId (Sql.post r)
         /\ Sql.createdBy r
            = Sql.mkCreator (User.id u) (User.username u) (User.email u)
                            (User.createdAt u) (User.updatedAt u))
  /\ Sql.voteStatus r
     = match voter with
       | Some uid =>
           option_map Upvote.value (Sql.Upvote_findOne uid (Post.id (Sql.post r)) d)
       | None => None
       end.
Proof.
  unfold Sql.join_rows. intros H. apply in_flat_map in H as (p & Hp & H).
  apply in_map_iff in H as (u & <- & Hu). apply filter_In in Hu as [Hu Hid].
  simpl. split; [exact Hp|]. split; [|reflexivity].
  exists u. split; [exact Hu|]. split; [now apply Z.eqb_eq|reflexivity].
Qed.

Lemma page_rows_in_join (limit : Z) (cursor : option string) (session : option Z)
    (d : Db) (page : PaginatedPosts.t) (r : Sql.PostRow) :
  PostResolver.posts limit cursor session d = Returned page ->
  In r (PaginatedPosts.posts page) ->
  In r (Sql.join_rows (voter_of session) d).
Proof.
  intros Hp Hr. unfold PostResolver.posts in Hp. rewrite posts_query_unfold in Hp.
  destruct (Z.min 50 limit + 1 <? 0); [discriminate|].
  assert (Hsel : forall bound,
             In r (slice0 (Z.min 50 limit)
                     (Sql.select_rows (voter_of session) bound (Z.min 50 limit + 1) d)) ->
             In r (Sql.join_rows (voter_of session) d)).
  { intros bound Hin.
    destruct (slice0_prefix (Z.min 50 limit)
                (Sql.select_rows (voter_of session) bound (Z.min 50 limit + 1) d))
      as [k Hk].
    rewrite Hk in Hin. apply In_firstn in Hin. unfold Sql.select_rows in Hin.
    apply In_firstn in Hin. apply (proj1 (In_merge_sort _ _)) in Hin.
    now apply filter_In in Hin as [Hin _]. }
  destruct cursor as [[|a rest]|].
  - inversion Hp; subst page. now apply (Hsel None).
  - destruct (Date _) as [t|]; [|discriminate].
    inversion Hp; subst page. now apply (Hsel (Some t)).
  - inversion Hp; subst page. now apply (Hsel None).
Qed.

(** X6.  Every row of a page is a post of the post table together with the
    public fields of a user whose id is the creator id of the post, and
    with the value of the caller's own vote on that post, or null when
    the caller has none; for a caller who is not logged in the vote
    status is null on every row. *)
Theorem page_rows_carry_creator_and_own_vote :
  forall (limit : Z) (cursor : option string) (session : option Z) (d : Db)
         (page : PaginatedPosts.t) (r : Sql.PostRow),
    PostResolver.posts limit cursor session d = Returned page ->
    In r (PaginatedPosts.posts page) ->
    In (Sql.post r) (post_table d)
    /\ (exists u,
           In u (user_table d) /\ User.id u = Post.creatorId (Sql.post r)
           /\ Sql.createdBy r
              = Sql.mkCreator (User.id u) (User.username u) (User.email u)
                              (User.createdAt u) (User.updatedAt u))
    /\ (truthy_number session = false -> Sql.voteStatus r = None)
    /\ (forall uid, session = Some uid -> uid <> 0 ->
          Sql.voteStatus r
          = option_map Upvote.value
              (Sql.Upvote_findOne uid (Post.id (Sql.post r)) d)).
Proof.
  intros limit cursor session d page r Hp Hr.
  pose proof (page_rows_in_join _ _ _ _ _ _ Hp Hr) as Hin.
  destruct (in_join_rows _ _ _ Hin) as (Hpost & Hu & Hvote).
  split; [exact Hpost|]. split; [exact Hu|]. split.
  - intros Hno. rewrite Hvote. unfold voter_of. now rewrite Hno.
  - intros uid -> Huid. rewrite Hvote. unfold voter_of. simpl.
    now rewrite (proj2 (Z.eqb_neq uid 0) Huid).
Qed.

Lemma page_rows_carry_creator_and_own_vote_witness :
  (PostResolver.posts 5 None (Some 2) feed_db
   = Returned
       (PaginatedPosts.mk
          (rows_of (PostResolver.posts_query 5 None (Some 2) feed_db)) false)
   /\ In (Sql.mkPostRow post_a (Sql.mkCreator 1 "bob" "bob@example.com" 0 0) (Some 1))
         (rows_of (PostResolver.posts_query 5 None (Some 2) feed_db))
   /\ Some 2 = Some 2 /\ 2 <> 0)
  /\ Some 1 = option_map Upvote.value (Sql.Upvote_findOne 2 1 feed_db).
Proof.
  assert (Hp : PostResolver.posts 5 None (Some 2) feed_db
               = Returned
                   (PaginatedPosts.mk
                      (rows_of (PostResolver.posts_query 5 None (Some 2) feed_db))
                      false)) by (vm_compute; reflexivity).
  assert (Hin : In (Sql.mkPostRow post_a
                      (Sql.mkCreator 1 "bob" "bob@example.com" 0 0) (Some 1))
                   (rows_of (PostResolver.posts_query 5 None (Some 2) feed_db)))
    by (vm_compute; tauto).
  split; [split; [exact Hp|split; [exact Hin|split; [reflexivity|lia]]]|].
  destruct (page_rows_carry_creator_and_own_vote 5 None (Some 2) feed_db _ _ Hp Hin)
    as (_ & _ & _ & Hvote).
  exact (Hvote 2 eq_refl ltac:(lia)).
Defined.

(** ** Creating a post *)

Lemma find_snoc_new {A : Type} (f : A -> bool) (l : list A) (x : A) :
  find f l = None -> f x = true -> find f (l ++ [x]) = Some x.
Proof.
  induction l as [|a l IH]; simpl; intros Hn Hx; [now rewrite Hx|].
  destruct (f a); [discriminate|now apply IH].
Qed.

Lemma find_snoc_other {A : Type} (f : A -> bool) (l : list A) (x : A) :
  f x = false -> find f (l ++ [x]) = find f l.
Proof.
  intros Hx. induction l as [|a l IH]; simpl; [now rewrite Hx|].
  destruct (f a); [reflexivity|exact IH].
Qed.

Lemma existsb_false_find {A : Type} (f : A -> bool) (l : list A) :
  existsb f l = false -> find f l = None.
Proof.
  induction l as [|a l IH]; simpl; [reflexivity|].
  destruct (f a); [discriminate|exact IH].
Qed.

(** X9.  [createPost] without an authenticated session throws and writes
    nothing.  When it returns a post, the post belongs to the user of
    the session, has 0 points and the title and text of the input, is
    the one row added to the post table, and [post] finds it under its
    id, the other ids being read as before.  When it throws, the store
    is unchanged. *)
Theorem createPost_adds_the_post_it_returns :
  forall (input : PostInput.t) (session : option Z) (id now : Z) (d : Db),
    (truthy_number session = false ->
     PostResolver.createPost input session id now d
     = (Thrown "not authenticated", d))
    /\ (forall row,
           fst (PostResolver.createPost input session id now d) = Returned row ->
           row = Post.mk id (PostInput.title input) (PostInput.text input) 0
                         (Post.creatorId row) now now
           /\ session = Some (Post.creatorId row)
           /\ post_table (snd (PostResolver.createPost input session id now d))
              = post_table d ++ [row]
           /\ PostResolver.post id (snd (PostResolver.createPost input session id now d))
              = Some row
           /\ (forall id', id' <> id ->
                 PostResolver.post id'
                   (snd (PostResolver.createPost input session id now d))
                 = PostResolver.post id' d)
           /\ upvote_table (snd (PostResolver.createPost input session id now d))
              = upvote_table d
           /\ user_table (snd (PostResolver.createPost input session id now d))
              = user_table d)
    /\ (forall e,
           fst (PostResolver.createPost input session id now d) = Thrown e ->
           snd (PostResolver.createPost input session id now d) = d).
Proof.
  intros input session id now d. split; [|split].
  - intros Hno. unfold PostResolver.createPost, PostResolver.isAuth.
    destruct session; [now rewrite Hno|reflexivity].
  - intros row Hret.
    destruct (createPost_store input session id now d)
      as [Hsame|(uid & -> & Huid & Hex & Hu & Hcp)].
    + exfalso. revert Hret Hsame. clear.
      unfold PostResolver.createPost, Sql.insert_post.
      destruct session as [uid|]; [|discriminate].
      destruct (PostResolver.isAuth (Some uid)); [|discriminate].
      destruct (Sql.post_exists id d); [discriminate|].
      destruct (negb _); [discriminate|]. simpl. intros _ Hd.
      apply (f_equal (fun x => length (post_table x))) in Hd. simpl in Hd.
      rewrite length_app in Hd. simpl in Hd. lia.
    + rewrite Hcp in *. simpl in Hret. inversion Hret; subst row; clear Hret.
      simpl. repeat split.
      * unfold PostResolver.post, Sql.Post_findOne. simpl.
        apply find_snoc_new; [|simpl; apply Z.eqb_refl].
        now apply existsb_false_find.
      * intros id' Hne. unfold PostResolver.post, Sql.Post_findOne. simpl.
        apply find_snoc_other. simpl. now apply Z.eqb_neq.
  - intros e Hthrown.
    destruct (createPost_store input session id now d)
      as [Hsame|(uid & _ & _ & _ & _ & Hcp)]; [exact Hsame|].
    rewrite Hcp in Hthrown. discriminate.
Qed.

Lemma createPost_adds_the_post_it_returns_witness :
  (truthy_number None = false
   /\ fst (PostResolver.createPost (PostInput.mk "fourth" "more") (Some 2) 4 500 feed_db)
      = Returned (Post.mk 4 "fourth" "more" 0 2 500 500))
  /\ PostResolver.createPost (PostInput.mk "fourth" "more") None 4 500 feed_db
     = (Thrown "not authenticated", feed_db)
  /\ PostResolver.post 4
       (snd (PostResolver.createPost (PostInput.mk "fourth" "more") (Some 2) 4 500 feed_db))
     = Some (Post.mk 4 "fourth" "more" 0 2 500 500).
Proof.
  assert (Hret : fst (PostResolver.createPost (PostInput.mk "fourth" "more")
                        (Some 2) 4 500 feed_db)
                 = Returned (Post.mk 4 "fourth" "more" 0 2 500 500))
    by (vm_compute; reflexivity).
  split; [split; [reflexivity|exact Hret]|].
  split.
  - exact (proj1 (createPost_adds_the_post_it_returns (PostInput.mk "fourth" "more")
                    None 4 500 feed_db) eq_refl).
  - destruct (createPost_adds_the_post_it_returns (PostInput.mk "fourth" "more")
                (Some 2) 4 500 feed_db) as (_ & H & _).
    destruct (H _ Hret) as (_ & _ & _ & Hpost & _). exact Hpost.
Defined.

(** ** Logging in, and registering first *)

Section Sessions.

Variable argon2_hash : string -> string.
Variable argon2_verify : string -> string -> bool.
Variable validateRegister : UsernamePasswordInput.t -> option (list FieldError).

(** X10.  [login] never writes to the database, the cache or the mails.  It
    answers with a user only for a row of the user table whose stored
    hash verifies the password given and whose email (when the name
    given has an at sign) or username (when it has none) is the name
    given; then the session is that user's.  Otherwise the answer is one
    field error, on [usernameOrEmail] or on [password], and the session
    is as it was.  The two versions of the resolver agree. *)
Theorem login_needs_verified_password :
  forall (usernameOrEmail password : string) (c : Ctx),
    let r := UserResolver.login argon2_verify usernameOrEmail password c in
    MikroOrmUserResolver.login argon2_verify usernameOrEmail password c = r
    /\ db (snd r) = db c /\ redis (snd r) = redis c /\ outbox (snd r) = outbox c
    /\ (forall u,
           UserResponse.user (fst r) = Some u ->
           In u (user_table (db c))
           /\ argon2_verify (User.password u) password = true
           /\ (if includes usernameOrEmail "@"
               then User.email u = usernameOrEmail
               else User.username u = usernameOrEmail)
           /\ session_userId (snd r) = Some (User.id u)
           /\ UserResponse.errors (fst r) = None)
    /\ (UserResponse.user (fst r) = None ->
        snd r = c
        /\ (UserResponse.errors (fst r)
            = Some [mkFieldError "usernameOrEmail" "user doesn't exist in database"]
            \/ UserResponse.errors (fst r)
               = Some [mkFieldError "password" "incorrect password"])).
Proof.
  intros usernameOrEmail password c r. subst r.
  split; [reflexivity|].
  unfold UserResolver.login.
  set (found := if includes usernameOrEmail "@"
                then Store.User_findOne_by_email usernameOrEmail (db c)
                else Store.User_findOne_by_username usernameOrEmail (db c)).
  assert (Hfound : forall u, found = Some u ->
             In u (user_table (db c))
             /\ (if includes usernameOrEmail "@"
                 then User.email u = usernameOrEmail
                 else User.username u = usernameOrEmail)).
  { intros u. subst found.
    unfold Store.User_findOne_by_email, Store.User_findOne_by_username.
    destruct (includes usernameOrEmail "@"); intros Hf;
      apply find_some in Hf as [Hin He]; apply String.eqb_eq in He; auto. }
  destruct found as [u|].
  - destruct (Hfound u eq_refl) as [Hin Hname].
    destruct (argon2_verify (User.password u) password) eqn:Hv; simpl.
    + split; [reflexivity|]. split; [reflexivity|]. split; [reflexivity|].
      split; [|discriminate].
      intros u' Hu'. inversion Hu'; subst u'. auto.
    + split; [reflexivity|]. split; [reflexivity|]. split; [reflexivity|].
      split; [discriminate|]. intros _. auto.
  - simpl. split; [reflexivity|]. split; [reflexivity|]. split; [reflexivity|].
    split; [discriminate|]. intros _. auto.
Qed.

(** A registration that passes validation, with a username and an
    email that no row has, writes the row and makes the session that of
    the new user, in both versions. *)
Lemma register_new_user (options : UsernamePasswordInput.t) (now : Z) (c : Ctx) :
  validateRegister options = None ->
  (forall u, In u (user_table (db c)) ->
             User.username u <> UsernamePasswordInput.username options) ->
  (forall u, In u (user_table (db c)) ->
             User.email u <> UsernamePasswordInput.email options) ->
  let row := registered_row argon2_hash options now (db c) in
  let c' := mkCtx (mkDb (user_table (db c) ++ [row]) (post_table (db c))
                        (upvote_table (db c)) (user_id_seq (db c) + 1))
                  (redis c) (Some (User.id row)) (outbox c) in
  UserResolver.register argon2_hash validateRegister options now c
  = (Returned (UserResponse.mk None (Some row)), c')
  /\ MikroOrmUserResolver.register argon2_hash validateRegister options now c
     = (Returned (UserResponse.mk None (Some row)), c').
Proof.
  intros Hval Hname Hmail row c'.
  assert (Hins : Store.insert_user (UsernamePasswordInput.username options)
                   (argon2_hash (UsernamePasswordInput.password options))
                   (UsernamePasswordInput.email options) now (db c)
                 = (inr row, db c')).
  { unfold Store.insert_user.
    replace (existsb _ (user_table (db c))) with false.
    2:{ symmetry. apply not_true_is_false. intros H.
        apply existsb_exists in H as (u & Hu & He).
        apply String.eqb_eq in He. now apply (Hname u). }
    replace (existsb _ (user_table (db c))) with false.
    2:{ symmetry. apply not_true_is_false. intros H.
        apply existsb_exists in H as (u & Hu & He).
        apply String.eqb_eq in He. now apply (Hmail u). }
    reflexivity. }
  unfold UserResolver.register, MikroOrmUserResolver.register.
  rewrite Hval, Hins. split; reflexivity.
Qed.

(** X11.  After a registration that passes validation, with a username
    and an email that no row has, and when the keys of the user table
    come from its sequence, [me] answers with the user just registered,
    who is the last row of the table (in both versions). *)
Theorem me_after_register :
  forall (options : UsernamePasswordInput.t) (now : Z) (c : Ctx),
    validateRegister options = None ->
    (forall u, In u (user_table (db c)) ->
               User.username u <> UsernamePasswordInput.username options) ->
    (forall u, In u (user_table (db c)) ->
               User.email u <> UsernamePasswordInput.email options) ->
    user_keys_from_sequence (db c) ->
    let r := UserResolver.register argon2_hash validateRegister options now c in
    let row := registered_row argon2_hash options now (db c) in
    fst r = Returned (UserResponse.mk None (Some row))
    /\ user_table (db (snd r)) = user_table (db c) ++ [row]
    /\ UserResolver.me (snd r) = Some row
    /\ MikroOrmUserResolver.me
         (snd (MikroOrmUserResolver.register argon2_hash validateRegister options now c))
       = Some row
    /\ user_keys_from_sequence (db (snd r)).
Proof.
  intros options now c Hval Hname Hmail [Hseq Hkeys] r row.
  destruct (register_new_user options now c Hval Hname Hmail) as [Ht Hm].
  subst r. rewrite Ht, Hm. fold row. cbn [fst snd db user_table].
  assert (Hme : Store.User_findOne (User.id row)
                  (mkDb (user_table (db c) ++ [row]) (post_table (db c))
                        (upvote_table (db c)) (user_id_seq (db c) + 1))
                = Some row).
  { unfold Store.User_findOne. simpl.
    apply find_snoc_new; [|apply Z.eqb_refl].
    apply find_none_iff. intros u Hu. apply Z.eqb_neq.
    specialize (Hkeys u Hu). lia. }
  assert (Htruthy : truthy_number (Some (User.id row)) = true).
  { simpl. apply negb_true_iff, Z.eqb_neq. lia. }
  split; [reflexivity|]. split; [reflexivity|].
  split; [|split].
  - unfold UserResolver.me. cbn [session_userId db]. now rewrite Htruthy.
  - unfold MikroOrmUserResolver.me. cbn [session_userId db]. now rewrite Htruthy.
  - split; simpl; [lia|]. intros u Hu.
    apply in_app_or in Hu as [Hu|[<-|[]]]; [specialize (Hkeys u Hu); lia|simpl; lia].
Qed.

(** X12.  After a registration that passes validation, with a username
    and an email that no row has, the user can log in with the password
    of the registration, provided that the check of passwords accepts a
    password against its own hash: by username when the username has no
    at sign, by email when the email has one. *)
Theorem login_after_register :
  forall (options : UsernamePasswordInput.t) (now : Z) (c : Ctx),
    validateRegister options = None ->
    (forall u, In u (user_table (db c)) ->
               User.username u <> UsernamePasswordInput.username options) ->
    (forall u, In u (user_table (db c)) ->
               User.email u <> UsernamePasswordInput.email options) ->
    argon2_verify (argon2_hash (UsernamePasswordInput.password options))
      (UsernamePasswordInput.password options) = true ->
    let c' := snd (UserResolver.register argon2_hash validateRegister options now c) in
    let row := registered_row argon2_hash options now (db c) in
    (includes (UsernamePasswordInput.username options) "@" = false ->
     UserResolver.login argon2_verify (UsernamePasswordInput.username options)
       (UsernamePasswordInput.password options) c'
     = (UserResponse.mk None (Some row), c'))
    /\ (includes (UsernamePasswordInput.email options) "@" = true ->
        UserResolver.login argon2_verify (UsernamePasswordInput.email options)
          (UsernamePasswordInput.password options) c'
        = (UserResponse.mk None (Some row), c')).
Proof.
  intros options now c Hval Hname Hmail Hverify c' row.
  destruct (register_new_user options now c Hval Hname Hmail) as [Ht _].
  subst c'. rewrite Ht. fold row. cbn [snd].
  split; intros Hat; unfold UserResolver.login; rewrite Hat; cbn [db].
  - replace (Store.User_findOne_by_username _ _) with (Some row).
    + cbn [User.password row registered_row]. rewrite Hverify. reflexivity.
    + symmetry. unfold Store.User_findOne_by_username. simpl.
      apply find_snoc_new; [|apply String.eqb_refl].
      apply find_none_iff. intros u Hu. apply String.eqb_neq. now apply Hname.
  - replace (Store.User_findOne_by_email _ _) with (Some row).
    + cbn [User.password row registered_row]. rewrite Hverify. reflexivity.
    + symmetry. unfold Store.User_findOne_by_email. simpl.
      apply find_snoc_new; [|apply String.eqb_refl].
      apply find_none_iff. intros u Hu. apply String.eqb_neq. now apply Hmail.
Qed.

End Sessions.

Lemma login_needs_verified_password_witness :
  UserResponse.user (fst (UserResolver.login tagged_verify "bob" "secret" token_issued))
  = Some bob
  /\ UserResponse.user
       (fst (UserResolver.login tagged_verify "bob" "guess" token_issued))
     = None
  /\ session_userId (snd (UserResolver.login tagged_verify "bob" "secret" token_issued))
     = Some 1
  /\ snd (UserResolver.login tagged_verify "bob" "guess" token_issued) = token_issued.
Proof.
  assert (Hok : UserResponse.user
                  (fst (UserResolver.login tagged_verify "bob" "secret" token_issued))
                = Some bob) by (vm_compute; reflexivity).
  assert (Hbad : UserResponse.user
                   (fst (UserResolver.login tagged_verify "bob" "guess" token_issued))
                 = None) by (vm_compute; reflexivity).
  split; [exact Hok|]. split; [exact Hbad|]. split.
  - destruct (login_needs_verified_password tagged_verify "bob" "secret" token_issued)
      as (_ & _ & _ & _ & Hsome & _).
    destruct (Hsome bob Hok) as (_ & _ & _ & Hs & _). exact Hs.
  - destruct (login_needs_verified_password tagged_verify "bob" "guess" token_issued)
      as (_ & _ & _ & _ & _ & Hnone).
    exact (proj1 (Hnone Hbad)).
Defined.

Lemma one_user_has_no_alice :
  (forall u, In u (user_table one_user) -> User.username u <> "alice")
  /\ (forall u, In u (user_table one_user) -> User.email u <> "alice@example.com").
Proof. split; intros u [<-|[]]; discriminate. Qed.

Lemma one_user_keys_from_sequence : user_keys_from_sequence one_user.
Proof. split; [simpl; lia|]. intros u [<-|[]]. simpl. lia. Qed.

Lemma me_after_register_witness :
  (no_validation_errors
     (UsernamePasswordInput.mk "alice" "alice@example.com" "secret1") = None
   /\ user_keys_from_sequence one_user)
  /\ UserResolver.me
       (snd (UserResolver.register tagged_hash no_validation_errors
               (UsernamePasswordInput.mk "alice" "alice@example.com" "secret1") 10
               (mkCtx one_user ∅ None [])))
     = Some (User.mk 2 "alice" "alice@example.com" "hash-of-secret1" 10 10).
Proof.
  split; [split; [reflexivity|exact one_user_keys_from_sequence]|].
  destruct (me_after_register tagged_hash no_validation_errors
              (UsernamePasswordInput.mk "alice" "alice@example.com" "secret1") 10
              (mkCtx one_user ∅ None []) eq_refl
              (proj1 one_user_has_no_alice) (proj2 one_user_has_no_alice)
              one_user_keys_from_sequence) as (_ & _ & Hme & _).
  exact Hme.
Defined.

Lemma login_after_register_witness :
  (tagged_verify (tagged_hash "secret1") "secret1" = true
   /\ includes "alice" "@" = false /\ includes "alice@example.com" "@" = true)
  /\ fst (UserResolver.login tagged_verify "alice" "secret1"
            (snd (UserResolver.register tagged_hash no_validation_errors
                    (UsernamePasswordInput.mk "alice" "alice@example.com" "secret1") 10
                    (mkCtx one_user ∅ None []))))
     = UserResponse.mk None
         (Some (User.mk 2 "alice" "alice@example.com" "hash-of-secret1" 10 10))
  /\ fst (UserResolver.login tagged_verify "alice@example.com" "secret1"
            (snd (UserResolver.register tagged_hash no_validation_errors
                    (UsernamePasswordInput.mk "alice" "alice@example.com" "secret1") 10
                    (mkCtx one_user ∅ None []))))
     = UserResponse.mk None
         (Some (User.mk 2 "alice" "alice@example.com" "hash-of-secret1" 10 10)).
Proof.
  split; [split; [reflexivity|split; reflexivity]|].
  destruct (login_after_register tagged_hash tagged_verify no_validation_errors
              (UsernamePasswordInput.mk "alice" "alice@example.com" "secret1") 10
              (mkCtx one_user ∅ None []) eq_refl
              (proj1 one_user_has_no_alice) (proj2 one_user_has_no_alice) eq_refl)
    as [Hname Hmail].
  split.
  - exact (f_equal fst (Hname eq_refl)).
  - exact (f_equal fst (Hmail eq_refl)).
Defined.

(** ** Changing a password *)

Lemma update_password_identity (id : Z) (hash : string) (now : Z) (d : Db) :
  map identity_columns (user_table (Store.User_update_password id hash now d))
  = map identity_columns (user_table d)
  /\ post_table (Store.User_update_password id hash now d) = post_table d
  /\ upvote_table (Store.User_update_password id hash now d) = upvote_table d
  /\ user_id_seq (Store.User_update_password id hash now d) = user_id_seq d
  /\ forall x, In x (user_table (Store.User_update_password id hash now d)) ->
               User.id x <> id -> In x (user_table d).
Proof.
  unfold Store.User_update_password. simpl. split; [|repeat split].
  - rewrite map_map. apply map_ext. intros u.
    destruct (User.id u =? id); reflexivity.
  - intros x Hx Hne. apply in_map_iff in Hx as (y & Hy & Hin).
    destruct (Z.eqb_spec (User.id y) id) as [He|_]; subst x; [|exact Hin].
    simpl in Hne. congruence.
Qed.

Section Passwords.

Variable argon2_hash : string -> string.
Variable prefix : string.

Lemma typeorm_changePassword_shape (token newPassword : string) (now : Z) (c : Ctx) :
  let r := UserResolver.changePassword argon2_hash prefix token newPassword now c in
  (snd r = c /\ ~ is_success (fst r))
  \/ exists u,
      fst r = Returned (UserResponse.mk None (Some u))
      /\ In u (user_table (db c))
      /\ snd r = mkCtx (Store.User_update_password (User.id u)
                          (argon2_hash newPassword) now (db c))
                       (delete (prefix +:+ token) (redis c))
                       (Some (User.id u)) (outbox c).
Proof.
  unfold UserResolver.changePassword, is_success.
  destruct (_ <=? _)%nat; [left; split; [reflexivity|intros [u Hu]; discriminate]|].
  destruct (Store.redis_get _ c) as [[|a rest]|];
    try (left; split; [reflexivity|intros [u Hu]; discriminate]).
  destruct (parseInt _) as [id|];
    [|left; split; [reflexivity|intros [u Hu]; discriminate]].
  destruct (Store.User_findOne id (db c)) as [u|] eqn:Hf;
    [|left; split; [reflexivity|intros [u Hu]; discriminate]].
  right. exists u. unfold Store.User_findOne in Hf.
  apply find_some in Hf as [Hin Hid]. apply Z.eqb_eq in Hid. subst id.
  split; [reflexivity|]. split; [exact Hin|reflexivity].
Qed.

Lemma mikro_changePassword_shape (token newPassword : string) (now : Z) (c : Ctx) :
  let r := MikroOrmUserResolver.changePassword argon2_hash prefix token newPassword now c in
  (snd r = c /\ ~ is_success (fst r))
  \/ exists u,
      fst r = Returned
                (UserResponse.mk None
                   (Some (User.mk (User.id u) (User.username u) (User.email u)
                                  (argon2_hash newPassword) (User.createdAt u) now)))
      /\ In u (user_table (db c))
      /\ snd r = mkCtx (Store.User_update_password (User.id u)
                          (argon2_hash newPassword) now (db c))
                       (redis c) (Some (User.id u)) (outbox c).
Proof.
  unfold MikroOrmUserResolver.changePassword, is_success.
  destruct (_ <=? _)%nat; [left; split; [reflexivity|intros [u Hu]; discriminate]|].
  destruct (Store.redis_get _ c) as [[|a rest]|];
    try (left; split; [reflexivity|intros [u Hu]; discriminate]).
  destruct (parseInt _) as [id|];
    [|left; split; [reflexivity|intros [u Hu]; discriminate]].
  destruct (Store.User_findOne id (db c)) as [u|] eqn:Hf;
    [|left; split; [reflexivity|intros [u Hu]; discriminate]].
  right. exists u. unfold Store.User_findOne in Hf.
  apply find_some in Hf as [Hin _].
  split; [reflexivity|]. split; [exact Hin|reflexivity].
Qed.

(** X14.  [changePassword], in either version: a call that does not answer
    with a user leaves the whole context as it was (no password is
    altered, no session is opened, the token stays); a call never
    changes the id, username, email or time of creation of a row, nor
    the posts, the votes or the mails; and when it answers with a user,
    the rows of the users with another id are as before. *)
Theorem changePassword_alters_one_password_at_most :
  forall (token newPassword : string) (now : Z) (c : Ctx) (r : Outcome UserResponse.t * Ctx),
    r = UserResolver.changePassword argon2_hash prefix token newPassword now c
    \/ r = MikroOrmUserResolver.changePassword argon2_hash prefix token newPassword now c ->
    (~ is_success (fst r) -> snd r = c)
    /\ map identity_columns (user_table (db (snd r)))
       = map identity_columns (user_table (db c))
    /\ post_table (db (snd r)) = post_table (db c)
    /\ upvote_table (db (snd r)) = upvote_table (db c)
    /\ outbox (snd r) = outbox c
    /\ (forall u x,
           fst r = Returned (UserResponse.mk None (Some u)) ->
           In x (user_table (db (snd r))) -> User.id x <> User.id u ->
           In x (user_table (db c))).
Proof.
  intros token newPassword now c r Hr.
  assert (Hshape :
            (snd r = c /\ ~ is_success (fst r))
            \/ exists u0 shown cache,
                fst r = Returned (UserResponse.mk None (Some shown))
                /\ User.id shown = User.id u0
                /\ snd r = mkCtx (Store.User_update_password (User.id u0)
                                    (argon2_hash newPassword) now (db c))
                                 cache (Some (User.id u0)) (outbox c)).
  { destruct Hr as [-> | ->].
    - destruct (typeorm_changePassword_shape token newPassword now c)
        as [H|(u & H1 & _ & H2)]; [now left|].
      right. exists u, u, (delete (prefix +:+ token) (redis c)). auto.
    - destruct (mikro_changePassword_shape token newPassword now c)
        as [H|(u & H1 & _ & H2)]; [now left|].
      right. eexists u, _, (redis c). split; [exact H1|]. split; [reflexivity|exact H2]. }
  destruct Hshape as [[Hsame Hno]|(u0 & shown & cache & Hfst & Hid & Hsnd)].
  - rewrite Hsame. repeat split; auto.
  - rewrite Hsnd. cbn [db outbox].
    destruct (update_password_identity (User.id u0) (argon2_hash newPassword) now (db c))
      as (Hcols & Hposts & Hvotes & _ & Hothers).
    split.
    { intros Hno. exfalso. apply Hno. exists shown. exact Hfst. }
    split; [exact Hcols|]. split; [exact Hposts|]. split; [exact Hvotes|].
    split; [reflexivity|].
    intros u x Hu Hx Hne. rewrite Hfst in Hu. inversion Hu; subst u.
    apply Hothers; [exact Hx|congruence].
Qed.

(** X15.  The round trip of a reset, TypeORM version.  For an email that a
    user has (the row being the one its id is looked up to),
    [forgotPassword] followed by [changePassword] with the token and a
    new password of more than 5 characters answers with that user, opens
    the session of that user, stores the hash of the new password in the
    row of that user, leaves one mail sent to the email, and leaves the
    cache without the entry of the token. *)
Theorem changePassword_after_forgotPassword :
  forall (e token newPassword : string) (now : Z) (c : Ctx) (u : User.t),
    Store.User_findOne_by_email e (db c) = Some u ->
    Store.User_findOne (User.id u) (db c) = Some u ->
    (5 < String.length newPassword)%nat ->
    let c1 := snd (UserResolver.forgotPassword prefix e token c) in
    let r := UserResolver.changePassword argon2_hash prefix token newPassword now c1 in
    Store.redis_get (prefix +:+ token) c1 = Some (Store.number_to_string (User.id u))
    /\ fst r = Returned (UserResponse.mk None (Some u))
    /\ session_userId (snd r) = Some (User.id u)
    /\ Store.User_findOne (User.id u) (db (snd r))
       = Some (User.mk (User.id u) (User.username u) (User.email u)
                       (argon2_hash newPassword) (User.createdAt u) now)
    /\ outbox (snd r) = outbox c ++ [mkMail e (reset_link token)]
    /\ redis (snd r) = delete (prefix +:+ token) (redis c).
Proof.
  intros e token newPassword now c u Hmail Hid Hlen c1 r.
  assert (Hc1 : c1 = mkCtx (db c)
                      (<[prefix +:+ token :=
                           mkCacheEntry (Store.number_to_string (User.id u))
                                        (1000 * 60 * 60 * 24)]> (redis c))
                      (session_userId c)
                      (outbox c ++ [mkMail e (reset_link token)])).
  { subst c1. unfold UserResolver.forgotPassword. rewrite Hmail. reflexivity. }
  assert (Hget : Store.redis_get (prefix +:+ token) c1
                 = Some (Store.number_to_string (User.id u))).
  { rewrite Hc1. unfold Store.redis_get. simpl. now rewrite lookup_insert_eq. }
  split; [exact Hget|].
  pose proof (parseInt_number_to_string (User.id u)) as Hparse.
  assert (Hr : r = (Returned (UserResponse.mk None (Some u)),
                    mkCtx (Store.User_update_password (User.id u)
                             (argon2_hash newPassword) now (db c))
                          (delete (prefix +:+ token) (redis c1))
                          (Some (User.id u))
                          (outbox c ++ [mkMail e (reset_link token)]))).
  { subst r. unfold UserResolver.changePassword.
    destruct (Nat.leb_spec (String.length newPassword) 5) as [|_]; [lia|].
    rewrite Hget.
    destruct (Store.number_to_string (User.id u)) as [|a rest] eqn:Hs;
      [discriminate|].
    rewrite Hparse. rewrite Hc1 at 1. cbn [db]. rewrite Hid.
    rewrite Hc1. reflexivity. }
  rewrite Hr. cbn [fst snd session_userId db outbox redis].
  split; [reflexivity|]. split; [reflexivity|]. split; [|split; [reflexivity|]].
  - unfold Store.User_findOne, Store.User_update_password in *. simpl.
    clear -Hid. induction (user_table (db c)) as [|a l IH]; simpl in *; [discriminate|].
    destruct (Z.eqb_spec (User.id a) (User.id u)) as [He|Hne].
    + inversion Hid; subst a. simpl. now rewrite Z.eqb_refl.
    + apply Z.eqb_neq in Hne. rewrite Hne. now apply IH.
  - rewrite Hc1. simpl. apply delete_insert_eq.
Qed.

End Passwords.

Lemma changePassword_alters_one_password_at_most_witness :
  (UserResolver.changePassword tagged_hash "forget-password:" "nope" "secret1" 10
     token_issued
   = UserResolver.changePassword tagged_hash "forget-password:" "nope" "secret1" 10
       token_issued
   /\ ~ is_success
         (fst (UserResolver.changePassword tagged_hash "forget-password:" "nope"
                 "secret1" 10 token_issued)))
  /\ snd (UserResolver.changePassword tagged_hash "forget-password:" "nope" "secret1" 10
            token_issued)
     = token_issued
  /\ map identity_columns
       (user_table
          (db (snd (UserResolver.changePassword tagged_hash "forget-password:" "tok"
                      "secret1" 10 token_issued))))
     = [(1, "bob", "bob@example.com", 0)].
Proof.
  assert (Hno : ~ is_success
                    (fst (UserResolver.changePassword tagged_hash "forget-password:"
                            "nope" "secret1" 10 token_issued))).
  { intros [u Hu]. vm_compute in Hu. discriminate. }
  split; [split; [reflexivity|exact Hno]|].
  split.
  - exact (proj1 (changePassword_alters_one_password_at_most tagged_hash
                    "forget-password:" "nope" "secret1" 10 token_issued _
                    (or_introl eq_refl)) Hno).
  - destruct (changePassword_alters_one_password_at_most tagged_hash
                "forget-password:" "tok" "secret1" 10 token_issued _
                (or_introl eq_refl)) as (_ & Hcols & _).
    rewrite Hcols. reflexivity.
Defined.

Lemma changePassword_after_forgotPassword_witness :
  (Store.User_findOne_by_email "bob@example.com" one_user = Some bob
   /\ Store.User_findOne (User.id bob) one_user = Some bob
   /\ (5 < String.length "secret1")%nat)
  /\ fst (UserResolver.changePassword tagged_hash "forget-password:" "t1" "secret1" 10
            (snd (UserResolver.forgotPassword "forget-password:" "bob@example.com" "t1"
                    (mkCtx one_user ∅ None []))))
     = Returned (UserResponse.mk None (Some bob))
  /\ Store.User_findOne 1
       (db (snd (UserResolver.changePassword tagged_hash "forget-password:" "t1"
                   "secret1" 10
                   (snd (UserResolver.forgotPassword "forget-password:"
                           "bob@example.com" "t1" (mkCtx one_user ∅ None []))))))
     = Some (User.mk 1 "bob" "bob@example.com" "hash-of-secret1" 0 10).
Proof.
  split; [split; [reflexivity|split; [reflexivity|vm_compute; lia]]|].
  destruct (changePassword_after_forgotPassword tagged_hash "forget-password:"
              "bob@example.com" "t1" "secret1" 10 (mkCtx one_user ∅ None []) bob
              eq_refl eq_refl ltac:(vm_compute; lia))
    as (_ & Hfst & _ & Hrow & _).
  split; [exact Hfst|exact Hrow].
Defined.

(** ** The loader of votes *)

Lemma key_string_inj (a b a' b' : Z) :
  UpvoteLoader.key_string a b = UpvoteLoader.key_string a' b' -> a = a' /\ b = b'.
Proof.
  unfold UpvoteLoader.key_string. intros H.
  assert (Hstop : forall s, stops_number ("|" +:+ s)).
  { intros s. simpl. split; [reflexivity|split; discriminate]. }
  assert (Ha : a = a').
  { pose proof (parseInt_number_to_string_app a _ (Hstop (Store.number_to_string b))) as H1.
    pose proof (parseInt_number_to_string_app a' _ (Hstop (Store.number_to_string b'))) as H2.
    rewrite H in H1. congruence. }
  subst a'. split; [reflexivity|].
  assert (Hb : Store.number_to_string b = Store.number_to_string b').
  { revert H. generalize (Store.number_to_string a) as s.
    induction s as [|ch s IH]; simpl; intros H; [now inversion H|].
    inversion H. now apply IH. }
  pose proof (parseInt_number_to_string b) as H1.
  pose proof (parseInt_number_to_string b') as H2.
  rewrite Hb in H1. congruence.
Qed.

Lemma find_filter_implied {A : Type} (f P : A -> bool) (l : list A) :
  (forall x, f x = true -> P x = true) ->
  find f (List.filter P l) = find f l.
Proof.
  intros Himp. induction l as [|a l IH]; simpl; [reflexivity|].
  destruct (P a) eqn:HP; simpl.
  - destruct (f a); [reflexivity|exact IH].
  - destruct (f a) eqn:Hf; [|exact IH].
    rewrite (Himp a Hf) in HP. discriminate.
Qed.

Lemma NoDup_keys_filter (P : Upvote.t -> bool) (l : list Upvote.t) :
  List.NoDup (map upvote_key l) -> List.NoDup (map upvote_key (List.filter P l)).
Proof.
  induction l as [|a l IH]; simpl; intros Hnd; [constructor|].
  inversion Hnd as [|? ? Hnotin Hnd']; subst.
  destruct (P a); simpl; [|now apply IH].
  constructor; [|now apply IH].
  intros Hin. apply Hnotin. apply in_map_iff in Hin as (y & Hy & Hin).
  apply filter_In in Hin as [Hin _]. apply in_map_iff. eauto.
Qed.

Lemma object_of_rows_lookup (l : list Upvote.t) (m0 : gmap string Upvote.t) (uid pid : Z) :
  List.NoDup (map upvote_key l) ->
  fold_left
    (fun m upvote =>
       <[UpvoteLoader.key_string (Upvote.userId upvote) (Upvote.postId upvote)
         := upvote]> m)
    l m0 !! UpvoteLoader.key_string uid pid
  = match find (Sql.upvote_matches uid pid) l with
    | Some u => Some u
    | None => m0 !! UpvoteLoader.key_string uid pid
    end.
Proof.
  revert m0. induction l as [|a l IH]; intros m0 Hnd; simpl; [reflexivity|].
  inversion Hnd as [|? ? Hnotin Hnd']; subst. rewrite IH by exact Hnd'.
  destruct (Sql.upvote_matches uid pid a) eqn:Hm.
  - pose proof Hm as Hk. apply upvote_matches_key in Hk.
    assert (Hnone : find (Sql.upvote_matches uid pid) l = None).
    { apply find_none_iff. intros x Hx. apply not_true_is_false. intros Hmx.
      apply upvote_matches_key in Hmx. apply Hnotin. rewrite Hk, <- Hmx.
      now apply in_map. }
    rewrite Hnone. inversion Hk as [[Hu Hp]]. apply lookup_insert_eq.
  - destruct (find (Sql.upvote_matches uid pid) l); [reflexivity|].
    apply lookup_insert_ne. intros Heq. apply key_string_inj in Heq as [Hu Hp].
    unfold Sql.upvote_matches in Hm. rewrite Hu, Hp, !Z.eqb_refl in Hm. discriminate.
Qed.

(** X18.  The batch function of the loader answers with one entry per key, in
    the order of the keys; when the vote table has one row per user and
    post, the entry of a key is the row that [Upvote.findOne] gives for
    the user and the post of the key, and nothing when there is no such
    row. *)
Theorem loader_batch_agrees_with_findOne :
  forall (keys : list UpvoteLoader.Key) (d : Db),
    length (UpvoteLoader.batch keys d) = length keys
    /\ (List.NoDup (map upvote_key (upvote_table d)) ->
        UpvoteLoader.batch keys d
        = map (fun k => Sql.Upvote_findOne (UpvoteLoader.userId k)
                          (UpvoteLoader.postId k) d)
              keys).
Proof.
  intros keys d. split; [unfold UpvoteLoader.batch; apply length_map|].
  intros Hnd. unfold UpvoteLoader.batch. apply map_ext_in. intros k Hk.
  rewrite object_of_rows_lookup
    by (unfold UpvoteLoader.findByIds; now apply NoDup_keys_filter).
  unfold UpvoteLoader.findByIds, Sql.Upvote_findOne.
  rewrite find_filter_implied.
  - destruct (find _ (upvote_table d)); [reflexivity|apply lookup_empty].
  - intros x Hx. apply existsb_exists. exists k. split; [exact Hk|exact Hx].
Qed.

Lemma loader_batch_agrees_with_findOne_witness :
  List.NoDup (map upvote_key (upvote_table feed_db))
  /\ UpvoteLoader.batch
       [UpvoteLoader.mkKey 1 2; UpvoteLoader.mkKey 3 2; UpvoteLoader.mkKey 1 2] feed_db
     = [Some (Upvote.mk 1 2 1); None; Some (Upvote.mk 1 2 1)].
Proof.
  split; [exact (proj2 feed_db_ledger_ok)|].
  rewrite (proj2 (loader_batch_agrees_with_findOne _ feed_db) (proj2 feed_db_ledger_ok)).
  reflexivity.
Defined.

(** ** What the account calls leave alone *)

Section Frames.

Variable argon2_hash : string -> string.
Variable validateRegister : UsernamePasswordInput.t -> option (list FieldError).
Variable prefix : string.

(** X13.  [register], in either version: when the validator reports errors
    they are the answer and nothing is written; the rows that were in
    the user table stay as they were and at most one row is added at
    the end; and the session changes only when a row is added, to the id
    of that row, which is then the user of the answer (the cache and the
    mails are never touched). *)
Theorem register_adds_at_most_one_row :
  forall (options : UsernamePasswordInput.t) (now : Z) (c : Ctx)
         (r : Outcome UserResponse.t * Ctx),
    r = UserResolver.register argon2_hash validateRegister options now c
    \/ r = MikroOrmUserResolver.register argon2_hash validateRegister options now c ->
    (forall es, validateRegister options = Some es ->
                r = (Returned (UserResponse.mk (Some es) None), c))
    /\ redis (snd r) = redis c /\ outbox (snd r) = outbox c
    /\ post_table (db (snd r)) = post_table (db c)
    /\ upvote_table (db (snd r)) = upvote_table (db c)
    /\ ((user_table (db (snd r)) = user_table (db c)
         /\ session_userId (snd r) = session_userId c
         /\ ~ is_success (fst r))
        \/ (exists row,
               user_table (db (snd r)) = user_table (db c) ++ [row]
               /\ session_userId (snd r) = Some (User.id row)
               /\ fst r = Returned (UserResponse.mk None (Some row))
               /\ User.username row = UsernamePasswordInput.username options
               /\ User.email row = UsernamePasswordInput.email options
               /\ User.password row
                  = argon2_hash (UsernamePasswordInput.password options))).
Proof.
  intros options now c r Hr.
  assert (Hno : forall (x : Outcome UserResponse.t),
             (forall u, x <> Returned (UserResponse.mk None (Some u))) -> ~ is_success x).
  { intros x Hx [u Hu]. now apply (Hx u). }
  unfold UserResolver.register, MikroOrmUserResolver.register, Store.insert_user in Hr.
  destruct (validateRegister options) as [es|] eqn:Hval.
  - assert (Hrc : r = (Returned (UserResponse.mk (Some es) None), c))
      by (destruct Hr; assumption).
    subst r. simpl. split; [intros es' He; now inversion He|].
    do 4 (split; [reflexivity|]). left. do 2 (split; [reflexivity|]).
    apply Hno. discriminate.
  - split; [discriminate|].
    destruct (existsb _ (user_table (db c))).
    { destruct Hr as [-> | ->]; simpl; try destruct (includes _ "email"); simpl;
        (do 4 (split; [reflexivity|])); left; (do 2 (split; [reflexivity|]));
        apply Hno; discriminate. }
    destruct (existsb _ (user_table (db c))).
    { destruct Hr as [-> | ->]; simpl; try destruct (includes _ "email"); simpl;
        (do 4 (split; [reflexivity|])); left; (do 2 (split; [reflexivity|]));
        apply Hno; discriminate. }
    assert (Hrc : r = (Returned
                         (UserResponse.mk None
                            (Some (registered_row argon2_hash options now (db c)))),
                       set_session_userId (Some (user_id_seq (db c) + 1))
                         (set_db
                            (set_user_table
                               (user_table (db c)
                                ++ [registered_row argon2_hash options now (db c)])
                               (mkDb (user_table (db c)) (post_table (db c))
                                     (upvote_table (db c)) (user_id_seq (db c) + 1)))
                            c)))
      by (destruct Hr; assumption).
    subst r. simpl. do 4 (split; [reflexivity|]). right.
    exists (registered_row argon2_hash options now (db c)). simpl.
    repeat (split; [reflexivity|]). reflexivity.
Qed.

(** X16.  [forgotPassword], in either version, never changes the database or
    the session; it leaves every cache key other than that of its token
    as it was; and it either changes nothing at all, or writes under the
    key of the token the id of a user who has the email, in decimal, with
    a lifetime of 86400000, and sends one mail, to that email, with the
    link of the token. *)
Theorem forgotPassword_writes_one_key_and_one_mail :
  forall (e token : string) (c : Ctx),
    let r := UserResolver.forgotPassword prefix e token c in
    MikroOrmUserResolver.forgotPassword prefix e token c = r
    /\ db (snd r) = db c
    /\ session_userId (snd r) = session_userId c
    /\ (forall k, k <> prefix +:+ token -> redis (snd r) !! k = redis c !! k)
    /\ (snd r = c
        \/ exists u,
            In u (user_table (db c)) /\ User.email u = e
            /\ redis (snd r) !! (prefix +:+ token)
               = Some (mkCacheEntry (Store.number_to_string (User.id u)) 86400000)
            /\ parseInt (Store.number_to_string (User.id u)) = Some (User.id u)
            /\ outbox (snd r) = outbox c ++ [mkMail e (reset_link token)]).
Proof.
  intros e token c r. subst r. split; [reflexivity|].
  unfold UserResolver.forgotPassword.
  destruct (Store.User_findOne_by_email e (db c)) as [u|] eqn:Hf; simpl.
  - split; [reflexivity|]. split; [reflexivity|]. split.
    + intros k Hk. now apply lookup_insert_ne.
    + right. exists u. unfold Store.User_findOne_by_email in Hf.
      apply find_some in Hf as [Hin He]. apply String.eqb_eq in He.
      split; [exact Hin|]. split; [exact He|].
      split; [apply lookup_insert_eq|].
      split; [apply parseInt_number_to_string|reflexivity].
  - split; [reflexivity|]. split; [reflexivity|]. split; [reflexivity|]. now left.
Qed.

(** X17.  [me], in either version, answers with a row of the user table whose
    id is the user id of the session, and with nothing when the session
    has no user id. *)
Theorem me_is_the_user_of_the_session :
  forall (c : Ctx),
    MikroOrmUserResolver.me c = UserResolver.me c
    /\ (forall u, UserResolver.me c = Some u ->
          In u (user_table (db c)) /\ session_userId c = Some (User.id u))
    /\ (session_userId c = None -> UserResolver.me c = None).
Proof.
  intros c. split; [reflexivity|]. unfold UserResolver.me. split.
  - intros u. destruct (session_userId c) as [id|]; simpl; [|discriminate].
    destruct (negb (id =? 0)); simpl; [|discriminate].
    unfold Store.User_findOne. intros Hf. apply find_some in Hf as [Hin Hid].
    apply Z.eqb_eq in Hid. subst id. auto.
  - intros ->. reflexivity.
Qed.

End Frames.

Lemma register_adds_at_most_one_row_witness :
  (MikroOrmUserResolver.register tagged_hash no_validation_errors
     (UsernamePasswordInput.mk "alice" "bob@example.com" "secret1") 10
     (mkCtx one_user ∅ None [])
   = MikroOrmUserResolver.register tagged_hash no_validation_errors
       (UsernamePasswordInput.mk "alice" "bob@example.com" "secret1") 10
       (mkCtx one_user ∅ None []))
  /\ user_table
       (db (snd (MikroOrmUserResolver.register tagged_hash no_validation_errors
                   (UsernamePasswordInput.mk "alice" "bob@example.com" "secret1") 10
                   (mkCtx one_user ∅ None []))))
     = [bob]
  /\ redis
       (snd (MikroOrmUserResolver.register tagged_hash no_validation_errors
               (UsernamePasswordInput.mk "alice" "bob@example.com" "secret1") 10
               (mkCtx one_user ∅ None [])))
     = ∅.
Proof.
  split; [reflexivity|]. split; [vm_compute; reflexivity|].
  destruct (register_adds_at_most_one_row tagged_hash no_validation_errors
              (UsernamePasswordInput.mk "alice" "bob@example.com" "secret1") 10
              (mkCtx one_user ∅ None []) _ (or_intror eq_refl))
    as (_ & Hredis & _).
  exact Hredis.
Defined.

Lemma forgotPassword_writes_one_key_and_one_mail_witness :
  "forget-password:tok" <> "forget-password:" +:+ "t1"
  /\ redis (snd (UserResolver.forgotPassword "forget-password:" "bob@example.com" "t1"
                   token_issued)) !! "forget-password:tok"
     = Some (mkCacheEntry "1" 86400000)
  /\ redis (snd (UserResolver.forgotPassword "forget-password:" "bob@example.com" "t1"
                   token_issued)) !! "forget-password:t1"
     = Some (mkCacheEntry "1" 86400000).
Proof.
  assert (Hne : "forget-password:tok" <> "forget-password:" +:+ "t1") by discriminate.
  split; [exact Hne|].
  destruct (forgotPassword_writes_one_key_and_one_mail "forget-password:"
              "bob@example.com" "t1" token_issued) as (_ & _ & _ & Hother & _).
  split.
  - rewrite (Hother "forget-password:tok" Hne). vm_compute. reflexivity.
  - vm_compute. reflexivity.
Defined.

Lemma me_is_the_user_of_the_session_witness :
  UserResolver.me (mkCtx one_user ∅ (Some 1) []) = Some bob
  /\ session_userId (mkCtx one_user ∅ (Some 1) []) = Some (User.id bob)
  /\ UserResolver.me (mkCtx one_user ∅ None []) = None.
Proof.
  assert (Hme : UserResolver.me (mkCtx one_user ∅ (Some 1) []) = Some bob)
    by reflexivity.
  split; [exact Hme|].
  destruct (me_is_the_user_of_the_session (mkCtx one_user ∅ (Some 1) []))
    as (_ & Hsome & _).
  split; [exact (proj2 (Hsome bob Hme))|].
  destruct (me_is_the_user_of_the_session (mkCtx one_user ∅ None []))
    as (_ & _ & Hnone).
  exact (Hnone eq_refl).
Defined.

(** ** A vote seen in the feed *)

(** X8.  After a call of [vote] that returned, every row of a page of the
    feed asked by the same user for the post of the call shows the value
    that the call wrote, +1 or -1, as the vote status. *)
Theorem feed_shows_the_vote_just_cast :
  forall (postId value uid limit : Z) (cursor : option string) (d : Db)
         (page : PaginatedPosts.t) (r : Sql.PostRow),
    uid <> 0 ->
    fst (PostResolver.vote postId value (Some uid) d) = Returned true ->
    PostResolver.posts limit cursor (Some uid)
      (snd (PostResolver.vote postId value (Some uid) d)) = Returned page ->
    In r (PaginatedPosts.posts page) ->
    Post.id (Sql.post r) = postId ->
    Sql.voteStatus r = Some (if value =? -1 then -1 else 1).
Proof.
  intros postId value uid limit cursor d page r Huid Hvote Hpage Hr Hid.
  pose proof (page_rows_in_join _ _ _ _ _ _ Hpage Hr) as Hin.
  destruct (in_join_rows _ _ _ Hin) as (_ & _ & Hstatus).
  destruct (vote_records_value postId value uid d Huid Hvote) as (u & Hfind & Hval).
  assert (Htruthy : truthy_number (Some uid) = true)
    by (unfold truthy_number; now rewrite (proj2 (Z.eqb_neq uid 0) Huid)).
  rewrite Hstatus. unfold voter_of. rewrite Htruthy, Hid, Hfind.
  cbn [option_map]. rewrite Hval. unfold realValue.
  destruct (value =? -1); reflexivity.
Qed.

Lemma feed_shows_the_vote_just_cast_witness :
  (1 <> 0
   /\ fst (PostResolver.vote 2 5 (Some 1) feed_db) = Returned true
   /\ PostResolver.posts 5 None (Some 1) (snd (PostResolver.vote 2 5 (Some 1) feed_db))
      = Returned
          (PaginatedPosts.mk
             (rows_of (PostResolver.posts_query 5 None (Some 1)
                         (snd (PostResolver.vote 2 5 (Some 1) feed_db))))
             false)
   /\ In (Sql.mkPostRow (Post.mk 2 "second" "text of the second" 1 2 200 200)
            (Sql.mkCreator 2 "alice" "alice@example.com" 5 5) (Some 1))
         (rows_of (PostResolver.posts_query 5 None (Some 1)
                     (snd (PostResolver.vote 2 5 (Some 1) feed_db)))))
  /\ Sql.voteStatus
       (Sql.mkPostRow (Post.mk 2 "second" "text of the second" 1 2 200 200)
          (Sql.mkCreator 2 "alice" "alice@example.com" 5 5) (Some 1))
     = Some (if 5 =? -1 then -1 else 1).
Proof.
  assert (Hvote : fst (PostResolver.vote 2 5 (Some 1) feed_db) = Returned true)
    by (vm_compute; reflexivity).
  assert (Hpage : PostResolver.posts 5 None (Some 1)
                    (snd (PostResolver.vote 2 5 (Some 1) feed_db))
                  = Returned
                      (PaginatedPosts.mk
                         (rows_of (PostResolver.posts_query 5 None (Some 1)
                                     (snd (PostResolver.vote 2 5 (Some 1) feed_db))))
                         false)) by (vm_compute; reflexivity).
  assert (Hin : In (Sql.mkPostRow (Post.mk 2 "second" "text of the second" 1 2 200 200)
                      (Sql.mkCreator 2 "alice" "alice@example.com" 5 5) (Some 1))
                   (rows_of (PostResolver.posts_query 5 None (Some 1)
                               (snd (PostResolver.vote 2 5 (Some 1) feed_db)))))
    by (vm_compute; tauto).
  split; [split; [lia|split; [exact Hvote|split; [exact Hpage|exact Hin]]]|].
  exact (feed_shows_the_vote_just_cast 2 5 1 5 None feed_db _ _ ltac:(lia)
           Hvote Hpage Hin eq_refl).
Defined.

(** ** Size and repetitions of a page *)

Lemma at_most_one_user_with_id (x : Z) (us : list User.t) :
  List.NoDup (map User.id us) ->
  (length (List.filter (fun u => (User.id u =? x)%Z) us) <= 1)%nat.
Proof.
  induction us as [|a us IH]; simpl; intros Hnd; [lia|].
  inversion Hnd as [|? ? Hnotin Hnd']; subst. specialize (IH Hnd').
  destruct (Z.eqb_spec (User.id a) x) as [He|_]; [|exact IH].
  destruct (List.filter (fun u => User.id u =? x) us) as [|b l] eqn:Hf;
    [simpl; lia|].
  exfalso. assert (Hb : In b (List.filter (fun u => User.id u =? x) us))
    by (rewrite Hf; now left).
  apply filter_In in Hb as [Hb Hid]. apply Z.eqb_eq in Hid.
  apply Hnotin. rewrite He, <- Hid. now apply in_map.
Qed.

Lemma join_rows_post_ids (voter : option Z) (d : Db) :
  List.NoDup (map Post.id (post_table d)) ->
  List.NoDup (map User.id (user_table d)) ->
  List.NoDup (map (fun r => Post.id (Sql.post r)) (Sql.join_rows voter d)).
Proof.
  intros Hposts Husers. unfold Sql.join_rows.
  induction (post_table d) as [|p ps IH]; simpl; [constructor|].
  inversion Hposts as [|? ? Hnotin Hnd']; subst. specialize (IH Hnd').
  rewrite map_app, map_map. simpl.
  pose proof (at_most_one_user_with_id (Post.creatorId p) (user_table d) Husers) as Hone.
  destruct (List.filter (fun u => User.id u =? Post.creatorId p) (user_table d))
    as [|u [|u' l]]; simpl in *; [exact IH| |lia].
  constructor; [|exact IH].
  intros Hin. apply Hnotin. apply in_map_iff in Hin as (r & Hr & Hin).
  apply in_flat_map in Hin as (q & Hq & Hin).
  apply in_map_iff in Hin as (w & <- & _). simpl in Hr.
  rewrite <- Hr. now apply in_map.
Qed.

Lemma NoDup_map_filter {A B : Type} (f : A -> B) (P : A -> bool) (l : list A) :
  List.NoDup (map f l) -> List.NoDup (map f (List.filter P l)).
Proof.
  induction l as [|a l IH]; simpl; intros Hnd; [constructor|].
  inversion Hnd as [|? ? Hnotin Hnd']; subst.
  destruct (P a); simpl; [|now apply IH].
  constructor; [|now apply IH].
  intros Hin. apply Hnotin. apply in_map_iff in Hin as (y & Hy & Hin).
  apply filter_In in Hin as [Hin _]. apply in_map_iff. eauto.
Qed.

Lemma NoDup_map_firstn {A B : Type} (f : A -> B) (n : nat) (l : list A) :
  List.NoDup (map f l) -> List.NoDup (map f (firstn n l)).
Proof.
  intros Hnd. rewrite <- (firstn_skipn n l), map_app in Hnd.
  now apply NoDup_app_remove_r in Hnd.
Qed.

Lemma NoDup_map_merge_sort {B : Type} (f : Sql.PostRow -> B) (l : list Sql.PostRow) :
  List.NoDup (map f l) -> List.NoDup (map f (merge_sort Sql.newer_first l)).
Proof.
  intros Hnd. eapply Permutation.Permutation_NoDup; [|exact Hnd].
  apply Permutation.Permutation_map. symmetry. apply merge_sort_Permutation.
Qed.

(** X7.  A page never has more than 50 posts, whatever the limit asked for;
    and when the ids of the posts and the ids of the users are keys of
    their tables, no post is listed twice on a page. *)
Theorem page_is_capped_and_lists_a_post_once :
  forall (limit : Z) (cursor : option string) (session : option Z) (d : Db)
         (page : PaginatedPosts.t),
    PostResolver.posts limit cursor session d = Returned page ->
    (length (PaginatedPosts.posts page) <= 50)%nat
    /\ (List.NoDup (map Post.id (post_table d)) ->
        List.NoDup (map User.id (user_table d)) ->
        List.NoDup (map (fun r => Post.id (Sql.post r)) (PaginatedPosts.posts page))).
Proof.
  intros limit cursor session d page Hp.
  unfold PostResolver.posts in Hp. rewrite posts_query_unfold in Hp.
  destruct (Z.ltb_spec (Z.min 50 limit + 1) 0) as [|Hn]; [discriminate|].
  assert (Hpage : exists bound,
             PaginatedPosts.posts page
             = slice0 (Z.min 50 limit)
                 (Sql.select_rows (voter_of session) bound (Z.min 50 limit + 1) d)).
  { destruct cursor as [[|a rest]|].
    - inversion Hp. eauto.
    - destruct (Date _); inversion Hp. eauto.
    - inversion Hp. eauto. }
  destruct Hpage as [bound Hrows]. rewrite Hrows. clear Hp Hrows. split.
  - unfold slice0.
    pose proof (select_rows_length (voter_of session) bound (Z.min 50 limit + 1) d Hn).
    rewrite length_firstn.
    destruct (Z.ltb_spec (Z.min 50 limit) 0); lia.
  - intros Hposts Husers.
    destruct (slice0_prefix (Z.min 50 limit)
                (Sql.select_rows (voter_of session) bound (Z.min 50 limit + 1) d))
      as [k ->].
    unfold Sql.select_rows.
    apply NoDup_map_firstn, NoDup_map_firstn, NoDup_map_merge_sort, NoDup_map_filter.
    now apply join_rows_post_ids.
Qed.

Lemma page_is_capped_and_lists_a_post_once_witness :
  (PostResolver.posts 1000 None None feed_db
   = Returned
       (PaginatedPosts.mk (rows_of (PostResolver.posts_query 1000 None None feed_db))
                          false)
   /\ List.NoDup (map Post.id (post_table feed_db))
   /\ List.NoDup (map User.id (user_table feed_db)))
  /\ (length (rows_of (PostResolver.posts_query 1000 None None feed_db)) <= 50)%nat
  /\ List.NoDup
       (map (fun r => Post.id (Sql.post r))
            (rows_of (PostResolver.posts_query 1000 None None feed_db))).
Proof.
  assert (Hp : PostResolver.posts 1000 None None feed_db
               = Returned
                   (PaginatedPosts.mk
                      (rows_of (PostResolver.posts_query 1000 None None feed_db))
                      false)) by (vm_compute; reflexivity).
  assert (Hposts : List.NoDup (map Post.id (post_table feed_db))).
  { simpl. repeat constructor; simpl; intuition discriminate. }
  assert (Husers : List.NoDup (map User.id (user_table feed_db))).
  { simpl. repeat constructor; simpl; intuition discriminate. }
  split; [split; [exact Hp|split; [exact Hposts|exact Husers]]|].
  destruct (page_is_capped_and_lists_a_post_once 1000 None None feed_db _ Hp)
    as [Hcap Hnodup].
  split; [exact Hcap|exact (Hnodup Hposts Husers)].
Defined.

(** * Overlapping calls, earlier votes and null titles *)

(** A failed statement undoes the statements of the transaction that ran
    before it. *)
Lemma transaction_rolls_back (stmts : list Sql.Stmt) (d : Db) (e : string) :
  fst (Sql.transaction stmts d) = Thrown e -> snd (Sql.transaction stmts d) = d.
Proof.
  unfold Sql.transaction. destruct (Sql.run stmts d); [reflexivity|discriminate].
Qed.

Lemma transaction_rolls_back_after_a_write :
  Sql.run [Sql.update_post_points 5 1] feed_db <> inr feed_db
  /\ Sql.transaction [Sql.update_post_points 5 1; Sql.insert_upvote 2 1 1] feed_db
     = (Thrown "23505", feed_db).
Proof. split; [vm_compute; discriminate|vm_compute; reflexivity]. Qed.

(** [vote] is the reading of the row followed by the part that writes. *)
Lemma vote_is_read_then_write (postId value uid : Z) (d : Db) :
  uid <> 0 ->
  PostResolver.vote postId value (Some uid) d
  = PostResolver.vote_after_read postId value uid
      (Sql.Upvote_findOne uid postId d) d.
Proof.
  intros Huid. unfold PostResolver.vote, PostResolver.isAuth. simpl.
  rewrite (proj2 (Z.eqb_neq uid 0) Huid). reflexivity.
Qed.

Lemma find_other_key_flip (v pid uid pid' uid' : Z) (vs : list Upvote.t) :
  (uid, pid) <> (uid', pid') ->
  find (Sql.upvote_matches uid' pid') (map (flip_row v pid uid) vs)
  = find (Sql.upvote_matches uid' pid') vs.
Proof.
  intros Hne. induction vs as [|a vs IH]; simpl; [reflexivity|].
  unfold flip_row at 1 2.
  destruct (Sql.upvote_matches uid pid a) eqn:Hm.
  - assert (Hno : Sql.upvote_matches uid' pid' a = false).
    { apply not_true_is_false. intros Hm'.
      apply upvote_matches_key in Hm. apply upvote_matches_key in Hm'. congruence. }
    assert (Hno' : Sql.upvote_matches uid' pid' (Upvote.with_value v a) = false)
      by exact Hno.
    rewrite Hno, Hno'. exact IH.
  - destruct (Sql.upvote_matches uid' pid' a); [reflexivity|exact IH].
Qed.

Lemma find_other_key_after_vote (postId value uid pid' uid' : Z) (d : Db) :
  uid <> 0 -> (uid, postId) <> (uid', pid') ->
  Sql.Upvote_findOne uid' pid' (snd (PostResolver.vote postId value (Some uid) d))
  = Sql.Upvote_findOne uid' pid' d.
Proof.
  intros Huid Hne. rewrite vote_unfold by exact Huid.
  destruct (Sql.Upvote_findOne uid postId d) as [u|].
  - destruct (Upvote.value u =? realValue value); [reflexivity|].
    unfold Sql.Upvote_findOne. simpl. now apply find_other_key_flip.
  - destruct (Sql.post_exists postId d); [|reflexivity].
    unfold Sql.Upvote_findOne. simpl. apply find_snoc_other.
    apply not_true_is_false. intros Hm. apply upvote_matches_key in Hm.
    unfold upvote_key in Hm. simpl in Hm. congruence.
Qed.

(** Two overlapping calls of different users, or on different posts,
    leave what the two calls leave one after the other. *)
Lemma overlapping_votes_on_other_rows_are_serial
    (uid1 postId1 value1 uid2 postId2 value2 : Z) (d : Db) :
  uid1 <> 0 -> uid2 <> 0 -> (uid1, postId1) <> (uid2, postId2) ->
  PostResolver.overlapping_votes (uid1, postId1, value1) (uid2, postId2, value2) d
  = (fst (PostResolver.vote postId1 value1 (Some uid1) d),
     fst (PostResolver.vote postId2 value2 (Some uid2)
            (snd (PostResolver.vote postId1 value1 (Some uid1) d))),
     snd (PostResolver.vote postId2 value2 (Some uid2)
            (snd (PostResolver.vote postId1 value1 (Some uid1) d)))).
Proof.
  intros H1 H2 Hne. unfold PostResolver.overlapping_votes.
  rewrite <- (find_other_key_after_vote postId1 value1 uid1 postId2 uid2 d H1 Hne).
  rewrite (vote_is_read_then_write postId2 value2 uid2 _ H2).
  rewrite (vote_is_read_then_write postId1 value1 uid1 d H1).
  destruct (PostResolver.vote_after_read postId1 value1 uid1
              (Sql.Upvote_findOne uid1 postId1 d) d) as [r1 d1].
  cbn [fst snd].
  destruct (PostResolver.vote_after_read postId2 value2 uid2
              (Sql.Upvote_findOne uid2 postId2 d1) d1) as [r2 d2].
  reflexivity.
Qed.

(** C1.  Two overlapping calls of [vote] by one user on one post break
    the equality of the points and the sum of the votes.  User 2 has a
    row with +1 on post 1, which has 1 point.  Two requests
    [vote(1, -1)] of user 2 both read the row with +1; the transaction
    of each sets the row to -1 and moves the points by -2.  Both calls
    complete and return [true]; the post is left with -3 points and one
    vote row, of value -1.  The same two calls one after the other leave
    -1 point. *)
Theorem overlapping_flips_break_points_sum :
  points_in_sync feed_db
  /\ PostResolver.overlapping_votes (2, 1, -1) (2, 1, -1) feed_db
     = (Returned true, Returned true,
        mkDb [bob; alice]
             [Post.mk 1 "first" "text of the first" (-3) 1 100 100; post_b; post_c]
             [Upvote.mk (-1) 2 1] 2)
  /\ vote_sum 1 [Upvote.mk (-1) 2 1] = -1
  /\ ~ points_in_sync
        (snd (PostResolver.overlapping_votes (2, 1, -1) (2, 1, -1) feed_db))
  /\ map Post.points (post_table (votes [(2, 1, -1); (2, 1, -1)] feed_db))
     = [-1; 0; 0].
Proof.
  split; [exact feed_db_in_sync|].
  split; [vm_compute; reflexivity|].
  split; [vm_compute; reflexivity|].
  split; [|vm_compute; reflexivity].
  intros Hsync.
  specialize (Hsync (Post.mk 1 "first" "text of the first" (-3) 1 100 100)).
  vm_compute in Hsync. specialize (Hsync (or_introl eq_refl)). discriminate.
Qed.

(** C4, the claim as it is written, fails for a user who has voted
    before: with a row of +1 two calls with +1 leave the points where
    they were, and with a row of -1 they move them by +2. *)
Lemma vote_twice_after_earlier_vote_counterexample :
  let first := PostResolver.vote 1 1 (Some 2) feed_db in
  let second := PostResolver.vote 1 1 (Some 2) (snd first) in
  let down := snd (PostResolver.vote 1 (-1) (Some 2) feed_db) in
  let first' := PostResolver.vote 1 1 (Some 2) down in
  let second' := PostResolver.vote 1 1 (Some 2) (snd first') in
  Sql.Upvote_findOne 2 1 feed_db = Some (Upvote.mk 1 2 1)
  /\ fst first = Returned true /\ fst second = Returned true
  /\ map Post.points (post_table feed_db) = [1; 0; 0]
  /\ map Post.points (post_table (snd second)) = [1; 0; 0]
  /\ 1 - 1 <> 1
  /\ Sql.Upvote_findOne 2 1 down = Some (Upvote.mk (-1) 2 1)
  /\ fst first' = Returned true /\ fst second' = Returned true
  /\ map Post.points (post_table down) = [-1; 0; 0]
  /\ map Post.points (post_table (snd second')) = [1; 0; 0]
  /\ 1 - -1 <> 1.
Proof. vm_compute. repeat split; discriminate. Qed.

(** C10, the claim as it is written, fails for the title [null], which
    the schema admits and which is not [undefined]: the post exists, the
    statement is refused, no title is written and no post is
    returned. *)
Lemma updatePost_null_title_counterexample :
  In post_b (post_table feed_db) /\ Post.id post_b = 2
  /\ PostResolver.updatePost 2 Null 400 feed_db = (Thrown "23502", feed_db)
  /\ fst (PostResolver.updatePost 2 Null 400 feed_db) <> Returned (Some post_b).
Proof.
  split; [simpl; auto|]. split; [reflexivity|].
  split; [reflexivity|discriminate].
Qed.
